(** * Opalinus Clay material evaluators: permeability and elasticity tensors

    A shallow embedding of [OpalinusPermeabilityTensor] (constructor and
    [computeQpProperties], from [src/OpalinusPermeabilityTensor.C]) and of
    the per-quadrature-point contract of [OpalinusElasticityTensor]
    (declared in [include/OpalinusElasticityTensor.h]).

    Conventions of the embedding.
    - libMesh's [Real] is idealised as the field of mathematical reals:
      rounding, infinities and NaN of the machine type are outside the
      model.  The test [f != 0.0] is the decidable equality of [R].
      Products are stated in the order in which the code forms them.
    - A C++ exception (or a failed bounds assertion of a host container)
      is a value [Raise e]; computations live in a small reader / state /
      log / error monad, so that one can say which collaborators a call
      has consulted and in which state it has left the object.
    - The host framework (element traversal, functor and material-property
      stores) is a record [Host] handed to every call. *)

From Stdlib Require Import Reals Lra List String Bool Arith Lia.
Import ListNotations.
Open Scope R_scope.

Set Implicit Arguments.

(** ** Scalars and points *)

Definition Real : Type := R.

(** [a != b] on [Real]. *)
Definition Real_ne (a b : Real) : bool :=
  if Req_dec_T a b then false else true.

Record Point : Type := mkPoint { px : Real; py : Real; pz : Real }.

(** ** Second-order tensors

    libMesh keeps the nine coefficients in row-major order
    ([_coords[3 * i + j]]); [cIJ] is the coefficient of row [I], column [J]. *)

Record RealTensorValue : Type := TensorValue {
  c00 : Real; c01 : Real; c02 : Real;
  c10 : Real; c11 : Real; c12 : Real;
  c20 : Real; c21 : Real; c22 : Real
}.

Definition RankTwoTensor : Type := RealTensorValue.

(** The nine-argument constructor of [RankTwoTensor] takes its arguments
    column by column: [(S11, S21, S31, S12, S22, S32, S13, S23, S33)]. *)
Definition mkRankTwoTensor (S11 S21 S31 S12 S22 S32 S13 S23 S33 : Real)
  : RankTwoTensor :=
  TensorValue S11 S12 S13 S21 S22 S23 S31 S32 S33.

(** The default-constructed tensor. *)
Definition zero_tensor : RealTensorValue :=
  TensorValue 0 0 0 0 0 0 0 0 0.

(** [T * f], tensor times scalar: every coefficient is multiplied by [f]. *)
Definition tensor_scale (T : RankTwoTensor) (f : Real) : RankTwoTensor :=
  TensorValue (c00 T * f) (c01 T * f) (c02 T * f)
              (c10 T * f) (c11 T * f) (c12 T * f)
              (c20 T * f) (c21 T * f) (c22 T * f).

(** [A * B], the matrix product. *)
Definition tensor_mul (A B : RankTwoTensor) : RankTwoTensor :=
  TensorValue
    (c00 A * c00 B + c01 A * c10 B + c02 A * c20 B)
    (c00 A * c01 B + c01 A * c11 B + c02 A * c21 B)
    (c00 A * c02 B + c01 A * c12 B + c02 A * c22 B)
    (c10 A * c00 B + c11 A * c10 B + c12 A * c20 B)
    (c10 A * c01 B + c11 A * c11 B + c12 A * c21 B)
    (c10 A * c02 B + c11 A * c12 B + c12 A * c22 B)
    (c20 A * c00 B + c21 A * c10 B + c22 A * c20 B)
    (c20 A * c01 B + c21 A * c11 B + c22 A * c21 B)
    (c20 A * c02 B + c21 A * c12 B + c22 A * c22 B).

Definition transpose (A : RankTwoTensor) : RankTwoTensor :=
  TensorValue (c00 A) (c10 A) (c20 A)
              (c01 A) (c11 A) (c21 A)
              (c02 A) (c12 A) (c22 A).

Definition identity_tensor : RankTwoTensor :=
  TensorValue 1 0 0 0 1 0 0 0 1.

Definition det (A : RankTwoTensor) : Real :=
  c00 A * (c11 A * c22 A - c12 A * c21 A)
  - c01 A * (c10 A * c22 A - c12 A * c20 A)
  + c02 A * (c10 A * c21 A - c11 A * c20 A).

Definition symmetric (A : RankTwoTensor) : Prop := transpose A = A.

Definition orthogonal (A : RankTwoTensor) : Prop :=
  tensor_mul A (transpose A) = identity_tensor.

(** [diag(k1, k2, k3)]. *)
Definition diag (k1 k2 k3 : Real) : RankTwoTensor :=
  TensorValue k1 0 0 0 k2 0 0 0 k3.

(** ** Exceptions, events and the evaluation monad *)

Inductive exn : Type :=
| OutOfRange                 (* bounds assertion of a host container *)
| ConfigError (what : string) (* unresolved collaborator at construction *)
| CollaboratorError (code : nat). (* raised by a functor, function or property *)

Inductive Exc (A : Type) : Type :=
| Ok (a : A)
| Raise (e : exn).
Arguments Raise {A} e.

Definition UserObjectName := string.
Definition MooseFunctorName := string.
Definition MaterialPropertyName := string.
Definition FunctionName := string.

(** Host handles of the current element and quadrature rule. *)
Definition Elem := nat.
Definition QBase := nat.

(** [Moose::ElemQpArg]: element, quadrature index, rule, physical point. *)
Record ElemQpArg : Type := mkElemQpArg {
  elem : Elem; qp : nat; qrule : QBase; point : Point
}.

(** [Moose::StateArg]: [0] is the current solution state, [1] the old one. *)
Record StateArg : Type := mkStateArg { state : nat }.
Definition currentState : StateArg := mkStateArg 0.
Definition oldState : StateArg := mkStateArg 1.

(** What a call has asked of its collaborators, in order. *)
Inductive Event : Type :=
| FunctorEval (name : MooseFunctorName) (a : ElemQpArg) (s : StateArg)
| MatPropRead (name : MaterialPropertyName) (i : nat)
| FunctionEval (name : FunctionName) (t : Real) (p : Point).

(** The members every [Material] inherits and the host sets before a call,
    together with the behaviour of the collaborators the object refers to
    by handle. *)
Record Host : Type := mkHost {
  _current_elem : Elem;
  _qp : nat;
  _qrule : QBase;
  _q_point : list Point;
  _is_implicit : bool;
  _t : Real;
  functor_eval : MooseFunctorName -> ElemQpArg -> StateArg -> Exc Real;
  matprop_value : MaterialPropertyName -> nat -> Exc Real;
  function_value : FunctionName -> Real -> Point -> Exc Real
}.

Definition determineState (h : Host) : StateArg :=
  if _is_implicit h then currentState else oldState.

(** Reader ([Host]) + state ([S]) + log ([Event]) + error. *)
Definition M (S A : Type) : Type :=
  Host -> S -> list Event * S * Exc A.

Definition ret {S A} (a : A) : M S A := fun _ s => ([], s, Ok a).

Definition bind {S A B} (m : M S A) (k : A -> M S B) : M S B :=
  fun h s =>
    match m h s with
    | (tr, s', Ok a) =>
        match k a h s' with
        | (tr', s'', r) => (tr ++ tr', s'', r)
        end
    | (tr, s', Raise e) => (tr, s', Raise e)
    end.

Definition raise {S A} (e : exn) : M S A := fun _ s => ([], s, Raise e).
Definition ask {S} : M S Host := fun h s => ([], s, Ok h).
Definition get {S} : M S S := fun _ s => ([], s, Ok s).
Definition put {S} (s : S) : M S unit := fun _ _ => ([], s, Ok tt).
Definition tell {S} (e : Event) : M S unit := fun _ s => ([e], s, Ok tt).
Definition lift {S A} (r : Exc A) : M S A := fun _ s => ([], s, r).

Declare Scope monad_scope.
Delimit Scope monad_scope with monad.
Notation "x <- m ;; k" := (bind m (fun x => k))
  (at level 61, m at next level, right associativity) : monad_scope.
Notation "m ;;; k" := (bind m (fun _ => k))
  (at level 61, right associativity) : monad_scope.

(** ** Host containers

    [a[i]] on a [MooseArray] or a [MaterialProperty]: the bounds assertion
    fails for an index past the end. *)

Definition index {S A} (a : list A) (i : nat) : M S A :=
  match nth_error a i with
  | Some x => ret x
  | None => raise OutOfRange
  end.

Fixpoint assign {A} (a : list A) (i : nat) (v : A) : option (list A) :=
  match a, i with
  | [], _ => None
  | _ :: tl, O => Some (v :: tl)
  | x :: tl, S j =>
      match assign tl j v with
      | Some tl' => Some (x :: tl')
      | None => None
      end
  end.

(** [declareProperty<T>] belongs to the host framework, not to this
    repository: the host sizes the property to the number of quadrature
    points and value-initialises every slot (the zero tensor, the empty
    [std::vector]). *)
Definition declareProperty {A} (default : A) (n_qp : nat) : list A :=
  repeat default n_qp.

(** A run of the host: the same per-point routine called once for each
    host state of [hs], in order; the first exception aborts the run. *)
Fixpoint run {S} (call : M S unit) (hs : list Host) (s : S)
  : list Event * S * Exc unit :=
  match hs with
  | [] => ([], s, Ok tt)
  | h :: hs' =>
      match call h s with
      | (tr, s', Ok _) =>
          match run call hs' s' with
          | (tr', s'', r) => (tr ++ tr', s'', r)
          end
      | (tr, s', Raise e) => (tr, s', Raise e)
      end
  end.

(** Collaborator calls, logged. *)
Definition eval_functor {S} (F : MooseFunctorName) (a : ElemQpArg)
    (st : StateArg) : M S Real :=
  (h <- ask ;; tell (FunctorEval F a st) ;;; lift (functor_eval h F a st))%monad.

Definition read_matprop {S} (P : MaterialPropertyName) (i : nat) : M S Real :=
  (h <- ask ;; tell (MatPropRead P i) ;;; lift (matprop_value h P i))%monad.

Definition eval_function {S} (Fn : FunctionName) (t : Real) (p : Point)
  : M S Real :=
  (h <- ask ;; tell (FunctionEval Fn t p) ;;; lift (function_value h Fn t p))%monad.

Definition isSome {A} (o : option A) : bool :=
  match o with Some _ => true | None => false end.

(** ** The local-frame collaborator *)

Record CartesianLocalCoordinateSystem : Type := mkLocalCoordinateSystem {
  rotation : RankTwoTensor
}.

(** Modelled from the spec: [CartesianLocalCoordinateSystem] and its method
    [rotateLocalToGlobal] are not among the sources.  Section 4.3: "given a
    2nd-order tensor in the local basis, mutate it in place to the global
    basis.  Equivalent to T <- R T R^T".  The in-place mutation is the
    returned tensor. *)
Definition rotateLocalToGlobal (cs : CartesianLocalCoordinateSystem)
    (T : RankTwoTensor) : RankTwoTensor :=
  tensor_mul (tensor_mul (rotation cs) T) (transpose (rotation cs)).

(** ** OpalinusPermeabilityTensor *)

Module OpalinusPermeabilityTensor.

(** The keys of [validParams]; the two prefactors are optional. *)
Record InputParameters : Type := mkParams {
  local_coordinate_system : UserObjectName;
  permeability1 : Real;
  permeability2 : Real;
  permeability3 : Real;
  prefactor_functor : option MooseFunctorName;
  prefactor_mat_prop : option MaterialPropertyName
}.

(** The members of the object.  The two prefactor pointers are handles
    into the host's stores ([None] is [nullptr]); the three declared
    properties hold one slot per quadrature point. *)
Record t : Type := mk {
  _localCoordinateSystem : CartesianLocalCoordinateSystem;
  _permeability1 : Real;
  _permeability2 : Real;
  _permeability3 : Real;
  _prefactor_functor : option MooseFunctorName;
  _prefactor_matprop : option MaterialPropertyName;
  _permeability_qp : list RealTensorValue;
  _dpermeability_qp_dvar : list (list RealTensorValue);
  _dpermeability_qp_dgradvar : list (list (list RealTensorValue));
  _input_permeability : RankTwoTensor
}.

(** The constructor.  [getUserObject] is the host's lookup of the named
    local coordinate system; [n_qp] the number of quadrature points the
    host sizes the declared properties to. *)
Definition construct
    (getUserObject : UserObjectName -> Exc CartesianLocalCoordinateSystem)
    (n_qp : nat) (parameters : InputParameters) : Exc t :=
  match getUserObject (local_coordinate_system parameters) with
  | Raise e => Raise e
  | Ok cs =>
      let k1 := permeability1 parameters in
      let k2 := permeability2 parameters in
      let k3 := permeability3 parameters in
      (* create permeability tensor in local coordinates (unrotated)
         and then rotate it to global coordinates *)
      let input := mkRankTwoTensor k1 0 0 0 k2 0 0 0 k3 in
      Ok (mk cs k1 k2 k3
             (prefactor_functor parameters)
             (prefactor_mat_prop parameters)
             (declareProperty zero_tensor n_qp)
             (declareProperty [] n_qp)
             (declareProperty [] n_qp)
             (rotateLocalToGlobal cs input))
  end.

Definition set_permeability_qp (this : t) (a : list RealTensorValue) : t :=
  mk (_localCoordinateSystem this)
     (_permeability1 this) (_permeability2 this) (_permeability3 this)
     (_prefactor_functor this) (_prefactor_matprop this)
     a
     (_dpermeability_qp_dvar this) (_dpermeability_qp_dgradvar this)
     (_input_permeability this).

(** [_permeability_qp[i] = v]. *)
Definition write_permeability_qp (i : nat) (v : RealTensorValue)
  : M t unit :=
  (this <- get ;;
   match assign (_permeability_qp this) i v with
   | Some a => put (set_permeability_qp this a)
   | None => raise OutOfRange
   end)%monad.

Definition computeQpProperties : M t unit :=
  (this <- get ;;
   h <- ask ;;
   if isSome (_prefactor_functor this) || isSome (_prefactor_matprop this)
   then
     f <- match _prefactor_functor this with
          | Some F =>
              p <- index (_q_point h) (_qp h) ;;
              let elem_arg :=
                mkElemQpArg (_current_elem h) (_qp h) (_qrule h) p in
              let state := determineState h in
              eval_functor F elem_arg state
          | None => ret 1
          end ;;
     f <- match _prefactor_matprop this with
          | Some P =>
              if Real_ne f 0
              then m <- read_matprop P (_qp h) ;; ret (f * m)
              else ret f
          | None => ret f
          end ;;
     write_permeability_qp (_qp h) (tensor_scale (_input_permeability this) f)
   else
     write_permeability_qp (_qp h) (_input_permeability this))%monad.

(** The tensor published for quadrature point [i]. *)
Definition published (this : t) (i : nat) : option RealTensorValue :=
  nth_error (_permeability_qp this) i.

(** The argument the functor is called with in host state [h]. *)
Definition functor_arg (h : Host) (p : Point) : ElemQpArg :=
  mkElemQpArg (_current_elem h) (_qp h) (_qrule h) p.

(** What the prefactor functor, if configured, returns at the current
    point of host state [h]. *)
Definition functor_result (this : t) (h : Host) : option (Exc Real) :=
  match _prefactor_functor this with
  | None => None
  | Some F =>
      match nth_error (_q_point h) (_qp h) with
      | Some p => Some (functor_eval h F (functor_arg h p) (determineState h))
      | None => Some (Raise OutOfRange)
      end
  end.

(** What the prefactor material property, if configured, holds at the
    current point of host state [h]. *)
Definition matprop_result (this : t) (h : Host) : option (Exc Real) :=
  match _prefactor_matprop this with
  | None => None
  | Some P => Some (matprop_value h P (_qp h))
  end.

End OpalinusPermeabilityTensor.

(** ** OpalinusElasticityTensor *)

Module OpalinusElasticityTensor.

(** Index of a spatial direction. *)
Inductive dir : Type := X | Y | Z.

(** A fourth-order tensor, by its 81 coefficients [C i j k l]. *)
Definition RankFourTensor : Type := dir -> dir -> dir -> dir -> Real.

(** [C * s], fourth-order tensor times scalar. *)
Definition rank4_scale (C : RankFourTensor) (s : Real) : RankFourTensor :=
  fun i j k l => C i j k l * s.

Definition rank4_zero : RankFourTensor := fun _ _ _ _ => 0.

Definition RealVectorValue : Type := Point.

(** The members declared in [OpalinusElasticityTensor.h]; the four
    [MaterialProperty] references hold one slot per quadrature point. *)
Record t : Type := mk {
  _base_name : string;
  _elasticity_tensor_name : string;
  _elasticity_tensor : list RankFourTensor;
  _prefactor_function : option FunctionName;
  _Cijkl : RankFourTensor;
  _geological_angles : RealVectorValue;
  _geological_rotation : RankTwoTensor;
  _Ep : Real;
  _Es : Real;
  _nu_p : Real;
  _nu_s : Real;
  _G_s : Real;
  _first_local_axis : list (list Real);
  _second_local_axis : list (list Real);
  _normal_local_axis : list (list Real)
}.

Definition set_elasticity_tensor (this : t) (a : list RankFourTensor) : t :=
  mk (_base_name this) (_elasticity_tensor_name this) a
     (_prefactor_function this) (_Cijkl this) (_geological_angles this)
     (_geological_rotation this)
     (_Ep this) (_Es this) (_nu_p this) (_nu_s this) (_G_s this)
     (_first_local_axis this) (_second_local_axis this)
     (_normal_local_axis this).

Definition set_first_local_axis (this : t) (a : list (list Real)) : t :=
  mk (_base_name this) (_elasticity_tensor_name this)
     (_elasticity_tensor this)
     (_prefactor_function this) (_Cijkl this) (_geological_angles this)
     (_geological_rotation this)
     (_Ep this) (_Es this) (_nu_p this) (_nu_s this) (_G_s this)
     a (_second_local_axis this) (_normal_local_axis this).

Definition set_second_local_axis (this : t) (a : list (list Real)) : t :=
  mk (_base_name this) (_elasticity_tensor_name this)
     (_elasticity_tensor this)
     (_prefactor_function this) (_Cijkl this) (_geological_angles this)
     (_geological_rotation this)
     (_Ep this) (_Es this) (_nu_p this) (_nu_s this) (_G_s this)
     (_first_local_axis this) a (_normal_local_axis this).

Definition set_normal_local_axis (this : t) (a : list (list Real)) : t :=
  mk (_base_name this) (_elasticity_tensor_name this)
     (_elasticity_tensor this)
     (_prefactor_function this) (_Cijkl this) (_geological_angles this)
     (_geological_rotation this)
     (_Ep this) (_Es this) (_nu_p this) (_nu_s this) (_G_s this)
     (_first_local_axis this) (_second_local_axis this) a.

(** [field[i] = v] for one of the declared properties. *)
Definition write {A} (field : t -> list A) (set : t -> list A -> t)
    (i : nat) (v : A) : M t unit :=
  (this <- get ;;
   match assign (field this) i v with
   | Some a => put (set this a)
   | None => raise OutOfRange
   end)%monad.

(** The rows of a second-order tensor, as length-3 sequences. *)
Definition row0 (A : RankTwoTensor) : list Real := [c00 A; c01 A; c02 A].
Definition row1 (A : RankTwoTensor) : list Real := [c10 A; c11 A; c12 A].
Definition row2 (A : RankTwoTensor) : list Real := [c20 A; c21 A; c22 A].

(** Modelled from the spec: the body of
    [OpalinusElasticityTensor::computeQpProperties] is not among the
    sources (only the class declaration is).  Section 4.1: "If
    prefactor_function is absent: publish the stored global C unchanged.
    If present: evaluate the function at the point's physical coordinates
    and time, multiply C by the scalar, publish the result." *)
Definition publish_elasticity_tensor : M t unit :=
  (this <- get ;;
   h <- ask ;;
   match _prefactor_function this with
   | None =>
       write _elasticity_tensor set_elasticity_tensor (_qp h) (_Cijkl this)
   | Some Fn =>
       p <- index (_q_point h) (_qp h) ;;
       s <- eval_function Fn (_t h) p ;;
       write _elasticity_tensor set_elasticity_tensor (_qp h)
             (rank4_scale (_Cijkl this) s)
   end)%monad.

(** Modelled from the spec: same missing body.  Section 4.1: "Publish
    the three rows of R as first_local_axis, second_local_axis,
    normal_local_axis (length-3 real sequences)." *)
Definition publish_local_axes : M t unit :=
  (this <- get ;;
   h <- ask ;;
   write _first_local_axis set_first_local_axis (_qp h)
         (row0 (_geological_rotation this)) ;;;
   write _second_local_axis set_second_local_axis (_qp h)
         (row1 (_geological_rotation this)) ;;;
   write _normal_local_axis set_normal_local_axis (_qp h)
         (row2 (_geological_rotation this)))%monad.

(** Modelled from the spec: the per-quadrature-point contract of
    section 4.1, its clauses in the order they are listed. *)
Definition computeQpProperties : M t unit :=
  (publish_elasticity_tensor ;;; publish_local_axes)%monad.

(** The elasticity tensor published for quadrature point [i]. *)
Definition published (this : t) (i : nat) : option RankFourTensor :=
  nth_error (_elasticity_tensor this) i.

(** The three axes published for quadrature point [i]. *)
Definition published_axes (this : t) (i : nat)
  : option (list Real) * option (list Real) * option (list Real) :=
  (nth_error (_first_local_axis this) i,
   nth_error (_second_local_axis this) i,
   nth_error (_normal_local_axis this) i).

(** Every declared property has a slot for quadrature point [i]. *)
Definition has_slot (this : t) (i : nat) : Prop :=
  (i < List.length (_elasticity_tensor this))%nat /\
  (i < List.length (_first_local_axis this))%nat /\
  (i < List.length (_second_local_axis this))%nat /\
  (i < List.length (_normal_local_axis this))%nat.

(** In host state [h] the prefactor function, when there is one, can be
    evaluated at the current point and returns a scalar. *)
Definition prefactor_evaluates (this : t) (h : Host) : Prop :=
  match _prefactor_function this with
  | None => True
  | Some Fn =>
      exists p s,
        nth_error (_q_point h) (_qp h) = Some p /\
        function_value h Fn (_t h) p = Ok s
  end.

(** What the prefactor function, if configured, returns at the current
    point and time of host state [h]. *)
Definition function_result (this : t) (h : Host) : option (Exc Real) :=
  match _prefactor_function this with
  | None => None
  | Some Fn =>
      match nth_error (_q_point h) (_qp h) with
      | Some p => Some (function_value h Fn (_t h) p)
      | None => Some (Raise OutOfRange)
      end
  end.

(** Rotation by the angle [theta] (in radians) about a coordinate axis. *)
Definition axis_rotation (a : dir) (theta : Real) : RankTwoTensor :=
  match a with
  | X => TensorValue 1 0 0
                     0 (cos theta) (- sin theta)
                     0 (sin theta) (cos theta)
  | Y => TensorValue (cos theta) 0 (sin theta)
                     0 1 0
                     (- sin theta) 0 (cos theta)
  | Z => TensorValue (cos theta) (- sin theta) 0
                     (sin theta) (cos theta) 0
                     0 0 1
  end.

(** An angle convention: the axes of the three successive rotations and,
    for each angle, the factor that gives its sign and its unit (1 for
    radians, pi/180 for degrees, negative for the opposite sense). *)
Record AngleConvention : Type := mkConvention {
  axis1 : dir; axis2 : dir; axis3 : dir;
  factor1 : Real; factor2 : Real; factor3 : Real
}.

(** Modelled from the spec: the code that builds [_geological_rotation] is
    not among the sources.  Section 3: "three Euler-like angles defining
    the bedding frame relative to global"; section 4.1: "geological_angles
    - three reals (dip, dip direction, and rotation about bedding normal,
    in the host's angle convention)" and "R is the rotation derived from
    geological_angles".  The rotation is the product of three rotations
    about coordinate axes, one per angle; which axes, senses and unit the
    host uses is the convention [conv], left open. *)
Definition rotation_from_angles (conv : AngleConvention)
    (angles : RealVectorValue) : RankTwoTensor :=
  tensor_mul
    (tensor_mul (axis_rotation (axis1 conv) (factor1 conv * px angles))
                (axis_rotation (axis2 conv) (factor2 conv * py angles)))
    (axis_rotation (axis3 conv) (factor3 conv * pz angles)).

Definition coef (A : RankTwoTensor) (i j : dir) : Real :=
  match i, j with
  | X, X => c00 A | X, Y => c01 A | X, Z => c02 A
  | Y, X => c10 A | Y, Y => c11 A | Y, Z => c12 A
  | Z, X => c20 A | Z, Y => c21 A | Z, Z => c22 A
  end.

Definition sum_dir (f : dir -> Real) : Real := f X + f Y + f Z.

(** Modelled from the spec: section 4.1, "rotate:
    C_global = R (x) R (x) R (x) R : C_local". *)
Definition rotate (Rm : RankTwoTensor) (C : RankFourTensor)
  : RankFourTensor :=
  fun i j k l =>
    sum_dir (fun a => sum_dir (fun b => sum_dir (fun c => sum_dir (fun d =>
      coef Rm i a * coef Rm j b * coef Rm k c * coef Rm l d * C a b c d)))).

(** The configuration inputs of section 4.1. *)
Record InputParameters : Type := mkParams {
  Ep : Real;
  Es : Real;
  nu_p : Real;
  nu_s : Real;
  G_s : Real;
  geological_angles : RealVectorValue;
  prefactor_function : option FunctionName;
  base_name : string
}.

(** Modelled from the spec: the constructor is not among the sources.
    Section 4.1, "Construction": the stiffness in the bedding frame is
    built from the five constants (by [local_stiffness], the inversion of
    the Voigt compliance, which is not modelled), rotated by the rotation
    derived from [geological_angles], and stored; section 6: the tensor is
    published as "<base_name>elasticity_tensor".  The four declared
    properties get one slot per quadrature point. *)
Definition construct (conv : AngleConvention)
    (local_stiffness : Real -> Real -> Real -> Real -> Real -> RankFourTensor)
    (n_qp : nat) (parameters : InputParameters) : t :=
  let Rm := rotation_from_angles conv (geological_angles parameters) in
  mk (base_name parameters)
     (base_name parameters ++ "elasticity_tensor")
     (declareProperty rank4_zero n_qp)
     (prefactor_function parameters)
     (rotate Rm (local_stiffness (Ep parameters) (Es parameters)
                                 (nu_p parameters) (nu_s parameters)
                                 (G_s parameters)))
     (geological_angles parameters)
     Rm
     (Ep parameters) (Es parameters) (nu_p parameters) (nu_s parameters)
     (G_s parameters)
     (declareProperty [] n_qp) (declareProperty [] n_qp)
     (declareProperty [] n_qp).

End OpalinusElasticityTensor.

(** ** Vectors as length-3 sequences *)

Definition dot (u v : list Real) : Real :=
  fold_right Rplus 0 (map (fun p => fst p * snd p) (combine u v)).

Definition cross (u v : list Real) : list Real :=
  match u, v with
  | [u1; u2; u3], [v1; v2; v3] =>
      [u2 * v3 - u3 * v2; u3 * v1 - u1 * v3; u1 * v2 - u2 * v1]
  | _, _ => []
  end.

(** [a], [b], [c] are unit vectors, pairwise orthogonal, and [a x b = c]. *)
Definition right_handed_orthonormal (a b c : list Real) : Prop :=
  dot a a = 1 /\ dot b b = 1 /\ dot c c = 1 /\
  dot a b = 0 /\ dot a c = 0 /\ dot b c = 0 /\
  cross a b = c.

(** ** Quadratic forms

    [v . (T v)] for a direction [v]; a permeability tensor should not give
    a negative value in any direction. *)

Definition quad_form (T : RankTwoTensor) (v : Point) : Real :=
  px v * (c00 T * px v + c01 T * py v + c02 T * pz v) +
  py v * (c10 T * px v + c11 T * py v + c12 T * pz v) +
  pz v * (c20 T * px v + c21 T * py v + c22 T * pz v).

Definition positive_semidefinite (T : RankTwoTensor) : Prop :=
  forall v : Point, 0 <= quad_form T v.

(** ** Input parameters by name

    [validParams] of the source, over a model of the host's
    [InputParameters]: the declarations a class makes and the values the
    input file supplies.  [addClassDescription], [addRequiredParam],
    [addParam], the validation [checkParams] the host runs before it
    constructs an object, [isParamValid] and [get<T>] belong to the host
    framework, not to this repository. *)

Module InputFile.

Local Open Scope string_scope.

Inductive ParamType : Type :=
| RealType
| UserObjectNameType
| MooseFunctorNameType
| MaterialPropertyNameType.

Inductive ParamValue : Type :=
| RealValue (r : Real)
| UserObjectNameValue (s : UserObjectName)
| MooseFunctorNameValue (s : MooseFunctorName)
| MaterialPropertyNameValue (s : MaterialPropertyName).

Definition type_of (v : ParamValue) : ParamType :=
  match v with
  | RealValue _ => RealType
  | UserObjectNameValue _ => UserObjectNameType
  | MooseFunctorNameValue _ => MooseFunctorNameType
  | MaterialPropertyNameValue _ => MaterialPropertyNameType
  end.

Definition ParamType_eqb (a b : ParamType) : bool :=
  match a, b with
  | RealType, RealType
  | UserObjectNameType, UserObjectNameType
  | MooseFunctorNameType, MooseFunctorNameType
  | MaterialPropertyNameType, MaterialPropertyNameType => true
  | _, _ => false
  end.

Record ParamDecl : Type := mkDecl {
  key : string;
  type : ParamType;
  required : bool;
  doc : string
}.

Record InputParameters : Type := mkInput {
  class_description : string;
  decls : list ParamDecl;
  values : string -> option ParamValue
}.

Definition addClassDescription (d : string) (params : InputParameters)
  : InputParameters :=
  mkInput d (decls params) (values params).

Definition addRequiredParam (ty : ParamType) (name d : string)
    (params : InputParameters) : InputParameters :=
  mkInput (class_description params)
          (decls params ++ [mkDecl name ty true d])
          (values params).

Definition addParam (ty : ParamType) (name d : string)
    (params : InputParameters) : InputParameters :=
  mkInput (class_description params)
          (decls params ++ [mkDecl name ty false d])
          (values params).

(** [OpalinusPermeabilityTensor::validParams]; its argument is the result
    of [Material::validParams()]. *)
Definition validParams (Material_validParams : InputParameters)
  : InputParameters :=
  let params := Material_validParams in
  let params :=
    addClassDescription
      "This Material calculates the permeability tensor assuming it is constant"
      params in
  let params :=
    addRequiredParam UserObjectNameType
      "local_coordinate_system"
      "The UserObject that defines the local coordinate system. "
      params in
  let params :=
    addRequiredParam RealType
      "permeability1"
      ("Intrinsic permeability in direction of the 'e1' axis of the coordinate system given by "
       ++ "'local_coordinate_system' in unit LE² (e.g. m²). "
       ++ "If the plane e1-e2 of the local coordinate system is representing the bedding, "
       ++ "than this permeability controls flow parallel to this bedding "
       ++ "(in this case for Opalinus, this corresponds to permeability of the P-samples)")
      params in
  let params :=
    addRequiredParam RealType
      "permeability2"
      ("Intrinsic permeability in direction of the 'e2' axis of the coordinate system given by "
       ++ "'local_coordinate_system' in unit LE² (e.g. m²). "
       ++ "If the plane e1-e2 of the local coordinate system is representing the bedding, "
       ++ "than this permeability controls flow parallel to this bedding "
       ++ "(in this case for Opalinus, this corresponds to permeability of the P-samples)")
      params in
  let params :=
    addRequiredParam RealType
      "permeability3"
      ("Intrinsic permeability in direction of the 'e3' axis of the coordinate system given by "
       ++ "'local_coordinate_system' in unit LE² (e.g. m²). "
       ++ "If the plane e1-e2 of the local coordinate system is representing the bedding, "
       ++ "than this permeability controls flow normal to this bedding "
       ++ "(in this case for Opalinus, this corresponds to permeability of the S-samples)")
      params in
  let params :=
    addParam MooseFunctorNameType
      "prefactor_functor"
      "Optional functor to use as a scalar prefactor on the permeability tensor."
      params in
  let params :=
    addParam MaterialPropertyNameType
      "prefactor_mat_prop"
      "Optional material property to use as a scalar prefactor on the permeability tensor."
      params in
  params.

(** The input file's values, put into the declared parameters. *)
Definition set_values (params : InputParameters)
    (vals : string -> option ParamValue) : InputParameters :=
  mkInput (class_description params) (decls params) vals.

(** The host's validation: a required parameter has a value, and a value
    has the declared type. *)
Definition check_decl (vals : string -> option ParamValue) (d : ParamDecl)
  : bool :=
  match vals (key d) with
  | None => negb (required d)
  | Some v => ParamType_eqb (type_of v) (type d)
  end.

Definition checkParams (params : InputParameters) : bool :=
  forallb (check_decl (values params)) (decls params).

Definition isParamValid (params : InputParameters) (name : string) : bool :=
  isSome (values params name).

(** [parameters.get<T>(name)]: an error when there is no value of type [T]
    under [name]. *)
Definition get_Real (params : InputParameters) (name : string) : Exc Real :=
  match values params name with
  | Some (RealValue r) => Ok r
  | _ => Raise (ConfigError name)
  end.

Definition get_UserObjectName (params : InputParameters) (name : string)
  : Exc UserObjectName :=
  match values params name with
  | Some (UserObjectNameValue s) => Ok s
  | _ => Raise (ConfigError name)
  end.

Definition get_MooseFunctorName (params : InputParameters) (name : string)
  : Exc MooseFunctorName :=
  match values params name with
  | Some (MooseFunctorNameValue s) => Ok s
  | _ => Raise (ConfigError name)
  end.

Definition get_MaterialPropertyName (params : InputParameters)
    (name : string) : Exc MaterialPropertyName :=
  match values params name with
  | Some (MaterialPropertyNameValue s) => Ok s
  | _ => Raise (ConfigError name)
  end.

Definition and_then {A B} (r : Exc A) (k : A -> Exc B) : Exc B :=
  match r with
  | Ok a => k a
  | Raise e => Raise e
  end.

(** The constructor of [OpalinusPermeabilityTensor], with every parameter
    looked up under the name the source uses, in the order of the member
    initialisers.  [getUserObject], [getFunctor] and [getMaterialProperty]
    are the host's lookups of the collaborator whose name the parameter
    holds; each fails when nothing of that name (and kind) exists.  The
    handle kept for a functor or property that resolves is its name. *)
Definition construct
    (getUserObject : UserObjectName -> Exc CartesianLocalCoordinateSystem)
    (getFunctor : MooseFunctorName -> Exc unit)
    (getMaterialProperty : MaterialPropertyName -> Exc unit)
    (n_qp : nat) (parameters : InputParameters)
  : Exc OpalinusPermeabilityTensor.t :=
  and_then (and_then (get_UserObjectName parameters "local_coordinate_system")
                     getUserObject)
    (fun _localCoordinateSystem =>
  and_then (get_Real parameters "permeability1") (fun _permeability1 =>
  and_then (get_Real parameters "permeability2") (fun _permeability2 =>
  and_then (get_Real parameters "permeability3") (fun _permeability3 =>
  and_then (if isParamValid parameters "prefactor_functor"
            then and_then (get_MooseFunctorName parameters "prefactor_functor")
                   (fun F => and_then (getFunctor F) (fun _ => Ok (Some F)))
            else Ok None) (fun _prefactor_functor =>
  and_then (if isParamValid parameters "prefactor_mat_prop"
            then and_then
                   (get_MaterialPropertyName parameters "prefactor_mat_prop")
                   (fun P => and_then (getMaterialProperty P)
                                      (fun _ => Ok (Some P)))
            else Ok None) (fun _prefactor_matprop =>
  let _input_permeability :=
    mkRankTwoTensor _permeability1 0 0 0 _permeability2 0 0 0 _permeability3 in
  Ok (OpalinusPermeabilityTensor.mk
        _localCoordinateSystem
        _permeability1 _permeability2 _permeability3
        _prefactor_functor _prefactor_matprop
        (declareProperty zero_tensor n_qp)
        (declareProperty [] n_qp)
        (declareProperty [] n_qp)
        (rotateLocalToGlobal _localCoordinateSystem _input_permeability)))))))).

End InputFile.

(** ** A small configuration

    Scenario P3 of the specification on a two-point element: principal
    permeabilities [(2, 2, 1)] in the identity frame, a functor and a
    material property as prefactors; and an elasticity object with the
    identity as geological rotation. *)

Module Scenario.

Local Open Scope string_scope.

Definition frame : CartesianLocalCoordinateSystem :=
  mkLocalCoordinateSystem identity_tensor.

Definition getUserObject (name : UserObjectName)
  : Exc CartesianLocalCoordinateSystem :=
  if String.eqb name "frame" then Ok frame else Raise (ConfigError name).

Definition parameters (f : option MooseFunctorName)
    (m : option MaterialPropertyName)
  : OpalinusPermeabilityTensor.InputParameters :=
  OpalinusPermeabilityTensor.mkParams "frame" 2 2 1 f m.

(** The object [construct getUserObject 2%nat (parameters f m)] returns. *)
Definition permeability (f : option MooseFunctorName)
    (m : option MaterialPropertyName) : OpalinusPermeabilityTensor.t :=
  OpalinusPermeabilityTensor.mk frame 2 2 1 f m
    (declareProperty zero_tensor 2%nat)
    (declareProperty [] 2%nat)
    (declareProperty [] 2%nat)
    (rotateLocalToGlobal frame (mkRankTwoTensor 2 0 0 0 2 0 0 0 1)).

Definition q_points : list Point := [mkPoint 0 0 0; mkPoint 1 0 0].

(** Host state at quadrature point [i]: every functor and function
    returns [fval], every material property holds [mval]. *)
Definition host (i : nat) (fval mval : Exc Real) : Host :=
  mkHost 0%nat i 0%nat q_points true 0
         (fun _ _ _ => fval) (fun _ _ => mval) (fun _ _ _ => fval).

Definition stiffness : OpalinusElasticityTensor.RankFourTensor :=
  fun _ _ _ _ => 1.

Definition elasticity (g : option FunctionName)
  : OpalinusElasticityTensor.t :=
  OpalinusElasticityTensor.mk "" "elasticity_tensor"
    (declareProperty OpalinusElasticityTensor.rank4_zero 2%nat)
    g stiffness (mkPoint 0 0 0) identity_tensor
    1 1 0 0 1
    (declareProperty [] 2%nat) (declareProperty [] 2%nat)
    (declareProperty [] 2%nat).

(** The input file of the scenario: the four required parameters and a
    prefactor functor; [Material::validParams] declaring nothing. *)
Definition no_base : InputFile.InputParameters :=
  InputFile.mkInput "" [] (fun _ => None).

(** The host knows one functor, ["f"], and one material property, ["m"]. *)
Definition getFunctor (name : MooseFunctorName) : Exc unit :=
  if String.eqb name "f" then Ok tt else Raise (ConfigError name).

Definition getMaterialProperty (name : MaterialPropertyName) : Exc unit :=
  if String.eqb name "m" then Ok tt else Raise (ConfigError name).

Definition input_values (name : string) : option InputFile.ParamValue :=
  if String.eqb name "local_coordinate_system"
  then Some (InputFile.UserObjectNameValue "frame")
  else if String.eqb name "permeability1" then Some (InputFile.RealValue 2)
  else if String.eqb name "permeability2" then Some (InputFile.RealValue 2)
  else if String.eqb name "permeability3" then Some (InputFile.RealValue 1)
  else if String.eqb name "prefactor_functor"
  then Some (InputFile.MooseFunctorNameValue "f")
  else None.

(** An elasticity input: bedding tilted by 90 degrees, angles in degrees,
    rotations about z, x, z. *)
Definition convention : OpalinusElasticityTensor.AngleConvention :=
  OpalinusElasticityTensor.mkConvention
    OpalinusElasticityTensor.Z OpalinusElasticityTensor.X
    OpalinusElasticityTensor.Z
    (PI / 180) (PI / 180) (PI / 180).

Definition elasticity_parameters (g : option FunctionName)
  : OpalinusElasticityTensor.InputParameters :=
  OpalinusElasticityTensor.mkParams 1 1 0 0 1 (mkPoint 90 0 0) g "".

End Scenario.

(** Unfold the monadic code down to its pattern matches. *)
Ltac unfold_call :=
  unfold OpalinusPermeabilityTensor.computeQpProperties,
    OpalinusPermeabilityTensor.write_permeability_qp,
    OpalinusElasticityTensor.computeQpProperties,
    OpalinusElasticityTensor.publish_elasticity_tensor,
    OpalinusElasticityTensor.publish_local_axes,
    OpalinusElasticityTensor.write,
    eval_functor, read_matprop, eval_function, index,
    bind, get, ask, put, tell, lift, ret, raise;
  simpl.

(** Decompose what is known about a concrete log; then conclude. *)
Ltac break_hyps :=
  repeat match goal with
  | H : _ /\ _ |- _ => destruct H
  | H : _ \/ _ |- _ => destruct H
  | H : exists _, _ |- _ => destruct H
  | H : False |- _ => contradiction
  | H : _ = _ |- _ => discriminate H
  | H : ?x = _ |- _ => is_var x; subst x
  | H : _ = ?x |- _ => is_var x; subst x
  | H : _ = _ |- _ => injection H; clear H; intros
  end.

Ltac log_solve :=
  repeat split; unfold not; intros; simpl in *; break_hyps;
  try congruence; try lia; repeat split; simpl; eauto 7.

(** * Properties *)

Unset Implicit Arguments.

(** ** Host containers *)

Lemma assign_in_range {A} (a : list A) (i : nat) (v : A) :
  (i < List.length a)%nat -> exists a', assign a i v = Some a'.
Proof.
  revert i; induction a as [|x tl IH]; intros [|j] Hlt; simpl in *;
    try lia; eauto.
  destruct (IH j) as [tl' E]; [lia|]. rewrite E. eauto.
Qed.

Lemma assign_out_of_range {A} (a : list A) (i : nat) (v : A) :
  (List.length a <= i)%nat -> assign a i v = None.
Proof.
  revert i; induction a as [|x tl IH]; intros [|j] Hle; simpl in *;
    try lia; auto.
  rewrite IH by lia. reflexivity.
Qed.

Lemma assign_length {A} (a a' : list A) (i : nat) (v : A) :
  assign a i v = Some a' -> List.length a' = List.length a.
Proof.
  revert i a'; induction a as [|x tl IH]; intros [|j] a' E; simpl in *;
    try discriminate.
  - inversion E; reflexivity.
  - destruct (assign tl j v) eqn:E'; [|discriminate].
    inversion E; subst; simpl. f_equal. eauto.
Qed.

Lemma assign_same {A} (a a' : list A) (i : nat) (v : A) :
  assign a i v = Some a' -> nth_error a' i = Some v.
Proof.
  revert i a'; induction a as [|x tl IH]; intros [|j] a' E; simpl in *;
    try discriminate.
  - inversion E; reflexivity.
  - destruct (assign tl j v) eqn:E'; [|discriminate].
    inversion E; subst; simpl. eauto.
Qed.

Lemma assign_other {A} (a a' : list A) (i j : nat) (v : A) :
  assign a i v = Some a' -> j <> i -> nth_error a' j = nth_error a j.
Proof.
  revert i j a'; induction a as [|x tl IH]; intros [|i] j a' E Hne;
    simpl in *; try discriminate.
  - inversion E; subst. destruct j; [congruence | reflexivity].
  - destruct (assign tl i v) eqn:E'; [|discriminate].
    inversion E; subst. destruct j; simpl; [reflexivity|].
    apply (IH i); auto.
Qed.

(** ** Scalars and tensors *)

Lemma Real_ne_same (x : Real) : Real_ne x x = false.
Proof. unfold Real_ne. destruct (Req_dec_T x x); congruence. Qed.

Lemma Real_ne_diff (x y : Real) : x <> y -> Real_ne x y = true.
Proof. unfold Real_ne. destruct (Req_dec_T x y); congruence. Qed.

Lemma tensor_scale_zero (T : RankTwoTensor) :
  tensor_scale T 0 = zero_tensor.
Proof. unfold tensor_scale, zero_tensor. f_equal; ring. Qed.

Lemma sum_of_squares_zero (x y z : Real) :
  x * x + y * y + z * z = 0 -> x = 0 /\ y = 0 /\ z = 0.
Proof.
  intros H.
  pose proof (Rle_0_sqr x) as Hx.
  pose proof (Rle_0_sqr y) as Hy.
  pose proof (Rle_0_sqr z) as Hz.
  unfold Rsqr in *.
  assert (x * x = 0) by lra.
  assert (y * y = 0) by lra.
  assert (z * z = 0) by lra.
  repeat split;
    match goal with
    | |- ?v = 0 => destruct (Rmult_integral v v); auto
    end.
Qed.

(** ** Runs *)

Section Runs.
Variable S : Type.
Variable call : M S unit.

(** A property of the object that no call can break survives a run,
    however the run ends. *)
Lemma run_preserves (I : S -> Prop) :
  (forall h s tr s' r, call h s = (tr, s', r) -> I s -> I s') ->
  forall hs s tr s' r, run call hs s = (tr, s', r) -> I s -> I s'.
Proof.
  intros Hstep hs; induction hs as [|h hs IH]; intros s tr s' r E Hs;
    simpl in E.
  - inversion E; subst; assumption.
  - destruct (call h s) as [[tr1 s1] [[]|e]] eqn:E1.
    + destruct (run call hs s1) as [[tr2 s2] r2] eqn:E2.
      inversion E; subst. eapply IH; eauto.
    + inversion E; subst. eauto.
Qed.

(** If, under the invariant [I], a call in an admissible host state
    ([P]) completes, keeps [I], establishes [Q] for its own host state
    and keeps every [Q] established before, then a run over admissible
    host states completes and [Q] holds for every one of them. *)
Lemma run_establishes (I : S -> Prop) (P : Host -> Prop)
    (Q : Host -> S -> Prop) :
  (forall h s, I s -> P h ->
     exists tr s', call h s = (tr, s', Ok tt) /\ I s' /\ Q h s' /\
                   forall h0, Q h0 s -> Q h0 s') ->
  forall hs s, I s -> Forall P hs ->
    exists tr s', run call hs s = (tr, s', Ok tt) /\ I s' /\
                  (forall h0, Q h0 s -> Q h0 s') /\
                  forall h, In h hs -> Q h s'.
Proof.
  intros Hstep hs; induction hs as [|h hs IH]; intros s Hs HP; simpl.
  - exists [], s. repeat split; auto. intros h [].
  - inversion HP as [|? ? Ph Phs]; subst.
    destruct (Hstep h s Hs Ph) as (tr1 & s1 & E1 & I1 & Q1 & K1).
    rewrite E1.
    destruct (IH s1 I1 Phs) as (tr2 & s2 & E2 & I2 & K2 & Q2).
    rewrite E2. exists (tr1 ++ tr2), s2. repeat split; auto.
    intros h' [<-|Hin]; auto.
Qed.
End Runs.

(** ** OpalinusPermeabilityTensor: single calls *)

Section Permeability.
Import OpalinusPermeabilityTensor.

Lemma write_permeability_qp_ok (h : Host) (this : t) (i : nat)
    (v : RealTensorValue) :
  (i < List.length (_permeability_qp this))%nat ->
  exists a,
    assign (_permeability_qp this) i v = Some a /\
    write_permeability_qp i v h this =
      ([], set_permeability_qp this a, Ok tt).
Proof.
  intros Hlt. destruct (assign_in_range _ _ v Hlt) as [a E].
  exists a. split; [assumption|].
  unfold write_permeability_qp, bind, get, put. rewrite E. reflexivity.
Qed.

Lemma published_after_write (this : t) (a : list RealTensorValue)
    (i : nat) (v : RealTensorValue) :
  assign (_permeability_qp this) i v = Some a ->
  published (set_permeability_qp this a) i = Some v.
Proof. intros E. unfold published; simpl. eapply assign_same; eauto. Qed.

(** C1. Both prefactors configured and the functor evaluates to zero at
    the current point: the call completes whatever a read of the material
    property would do, its log holds the functor evaluation alone (the
    material property is not read), and the tensor published for the
    current quadrature point is the zero tensor. *)
Theorem C1_zero_functor_skips_matprop :
  forall (h : Host) (this : t) (F : MooseFunctorName)
         (P : MaterialPropertyName) (p : Point),
    _prefactor_functor this = Some F ->
    _prefactor_matprop this = Some P ->
    nth_error (_q_point h) (_qp h) = Some p ->
    (_qp h < List.length (_permeability_qp this))%nat ->
    functor_eval h F (functor_arg h p) (determineState h) = Ok 0 ->
    exists tr this',
      computeQpProperties h this = (tr, this', Ok tt) /\
      tr = [FunctorEval F (functor_arg h p) (determineState h)] /\
      (forall Q i, ~ In (MatPropRead Q i) tr) /\
      published this' (_qp h) = Some zero_tensor.
Proof.
  intros h this F P p HF HP Hp Hlt Hf.
  destruct (write_permeability_qp_ok h this _
              (tensor_scale (_input_permeability this) 0) Hlt)
    as (a & Ea & Ew).
  exists [FunctorEval F (functor_arg h p) (determineState h)],
         (set_permeability_qp this a).
  split; [|split; [reflexivity|split]].
  - unfold write_permeability_qp, bind, get, put in Ew. unfold_call.
    rewrite HF, HP; simpl. rewrite Hp; simpl.
    fold (functor_arg h p). rewrite Hf, Real_ne_same. simpl.
    rewrite Ea. reflexivity.
  - intros Q i [H|[]]; discriminate.
  - rewrite <- (tensor_scale_zero (_input_permeability this)).
    eapply published_after_write; eauto.
Qed.

(** C3. Both prefactors configured, the functor evaluates to [f <> 0] and
    the material property holds [m] at the current point: the functor is
    evaluated, then the property is read, and every coefficient of the
    published tensor is the product of the coefficient of the stored
    tensor [K], of [f] and of [m], formed as the code forms it: [f] times
    [m] first, then [K_ij] times that product. *)
Theorem C3_product_of_both_prefactors :
  forall (h : Host) (this : t) (F : MooseFunctorName)
         (P : MaterialPropertyName) (p : Point) (f m : Real),
    _prefactor_functor this = Some F ->
    _prefactor_matprop this = Some P ->
    nth_error (_q_point h) (_qp h) = Some p ->
    (_qp h < List.length (_permeability_qp this))%nat ->
    functor_eval h F (functor_arg h p) (determineState h) = Ok f ->
    f <> 0 ->
    matprop_value h P (_qp h) = Ok m ->
    let K := _input_permeability this in
    exists this',
      computeQpProperties h this =
        ([FunctorEval F (functor_arg h p) (determineState h);
          MatPropRead P (_qp h)], this', Ok tt) /\
      published this' (_qp h) =
        Some (TensorValue
                (c00 K * (f * m)) (c01 K * (f * m)) (c02 K * (f * m))
                (c10 K * (f * m)) (c11 K * (f * m)) (c12 K * (f * m))
                (c20 K * (f * m)) (c21 K * (f * m)) (c22 K * (f * m))).
Proof.
  intros h this F P p f m HF HP Hp Hlt Hf Hne Hm K.
  destruct (write_permeability_qp_ok h this _ (tensor_scale K (f * m)) Hlt)
    as (a & Ea & Ew).
  exists (set_permeability_qp this a). split.
  - unfold_call. rewrite HF, HP; simpl. rewrite Hp; simpl.
    fold (functor_arg h p). rewrite Hf, (Real_ne_diff _ _ Hne). simpl.
    rewrite Hm. simpl. fold K. rewrite Ea. reflexivity.
  - apply (published_after_write this a (_qp h) (tensor_scale K (f * m)) Ea).
Qed.

(** C5. Only the material-property prefactor configured, holding [m] at
    the current point: the factor starts from [1], the property is read
    and multiplied in, and the published tensor is [K * (1 * m)], that is
    [K * m]. *)
Theorem C5_matprop_only :
  forall (h : Host) (this : t) (P : MaterialPropertyName) (m : Real),
    _prefactor_functor this = None ->
    _prefactor_matprop this = Some P ->
    (_qp h < List.length (_permeability_qp this))%nat ->
    matprop_value h P (_qp h) = Ok m ->
    let K := _input_permeability this in
    exists this',
      computeQpProperties h this =
        ([MatPropRead P (_qp h)], this', Ok tt) /\
      published this' (_qp h) = Some (tensor_scale K (1 * m)) /\
      published this' (_qp h) = Some (tensor_scale K m).
Proof.
  intros h this P m HF HP Hlt Hm K.
  destruct (write_permeability_qp_ok h this _ (tensor_scale K (1 * m)) Hlt)
    as (a & Ea & Ew).
  exists (set_permeability_qp this a).
  assert (Hpub : published (set_permeability_qp this a) (_qp h) =
                 Some (tensor_scale K (1 * m))).
  { eapply published_after_write; eauto. }
  split; [|split; [exact Hpub|]].
  - unfold_call. rewrite HF, HP; simpl.
    rewrite (Real_ne_diff _ _ R1_neq_R0). simpl.
    rewrite Hm. simpl. fold K. rewrite Ea. reflexivity.
  - rewrite Hpub. do 2 f_equal. ring.
Qed.

(** ** OpalinusPermeabilityTensor: what a call can change *)

(** Whatever the host state and however the call ends, the object is left
    as it was or with one slot of [_permeability_qp], the current one,
    assigned. *)
Lemma computeQpProperties_effect (h : Host) (this : t) :
  forall tr this' r,
    computeQpProperties h this = (tr, this', r) ->
    this' = this \/
    exists v a,
      assign (_permeability_qp this) (_qp h) v = Some a /\
      this' = set_permeability_qp this a.
Proof.
  intros tr this' r. unfold_call.
  destruct (_prefactor_functor this) as [F|];
    destruct (_prefactor_matprop this) as [P|]; simpl;
    repeat
      match goal with
      | |- context [nth_error ?l ?i] => destruct (nth_error l i); simpl
      | |- context [functor_eval ?a ?b ?c ?d] =>
          destruct (functor_eval a b c d); simpl
      | |- context [Real_ne ?x ?y] => destruct (Real_ne x y); simpl
      | |- context [matprop_value ?a ?b ?c] =>
          destruct (matprop_value a b c); simpl
      | |- context [assign ?l ?i ?v] =>
          let E := fresh "E" in destruct (assign l i v) eqn:E; simpl
      end;
    intros H; inversion H; subst; eauto.
Qed.

(** C10. A call writes at most the slot of the current quadrature point
    of [_permeability_qp]: the stored tensor [_input_permeability], the
    configuration constants and handles, both derivative fields (at every
    quadrature point) and every other slot of [_permeability_qp] are as
    before the call, and no slot is added or removed. *)
Theorem C10_call_writes_only_current_slot :
  forall (h : Host) (this : t),
    let this' := snd (fst (computeQpProperties h this)) in
    _input_permeability this' = _input_permeability this /\
    _localCoordinateSystem this' = _localCoordinateSystem this /\
    _permeability1 this' = _permeability1 this /\
    _permeability2 this' = _permeability2 this /\
    _permeability3 this' = _permeability3 this /\
    _prefactor_functor this' = _prefactor_functor this /\
    _prefactor_matprop this' = _prefactor_matprop this /\
    _dpermeability_qp_dvar this' = _dpermeability_qp_dvar this /\
    _dpermeability_qp_dgradvar this' = _dpermeability_qp_dgradvar this /\
    List.length (_permeability_qp this') =
      List.length (_permeability_qp this) /\
    forall j, j <> _qp h ->
      nth_error (_permeability_qp this') j =
      nth_error (_permeability_qp this) j.
Proof.
  intros h this this'.
  destruct (computeQpProperties h this) as [[tr s] r] eqn:E.
  subst this'; simpl.
  destruct (computeQpProperties_effect _ _ _ _ _ E) as [->|(v & a & Ea & ->)].
  - repeat split; auto.
  - simpl. repeat split; auto.
    + eapply assign_length; eauto.
    + intros j Hj. eapply assign_other; eauto.
Qed.

(** ** OpalinusPermeabilityTensor: runs *)

(** C4. With neither prefactor configured, every call of a run publishes
    the stored tensor [K] itself: after the run, the slot of every
    quadrature point visited holds [K], whatever the element, point, time
    and collaborators of the host state it was visited in, and [K] is
    still the stored tensor. *)
Theorem C4_no_prefactor_publishes_K :
  forall (this : t) (hs : list Host),
    _prefactor_functor this = None ->
    _prefactor_matprop this = None ->
    Forall (fun h => (_qp h < List.length (_permeability_qp this))%nat) hs ->
    exists tr this',
      run computeQpProperties hs this = (tr, this', Ok tt) /\
      _input_permeability this' = _input_permeability this /\
      forall h, In h hs ->
        published this' (_qp h) = Some (_input_permeability this).
Proof.
  intros this hs HF HP Hrange.
  set (K := _input_permeability this).
  set (n := List.length (_permeability_qp this)) in *.
  destruct (@run_establishes t computeQpProperties
              (fun s => _prefactor_functor s = None /\
                        _prefactor_matprop s = None /\
                        _input_permeability s = K /\
                        List.length (_permeability_qp s) = n)
              (fun h => (_qp h < n)%nat)
              (fun h s => published s (_qp h) = Some K))
    with (hs := hs) (s := this)
    as (tr & this' & E & (_ & _ & HK & _) & _ & Hall); auto.
  - intros h s (HF' & HP' & HK' & Hn) Hlt.
    rewrite <- Hn in Hlt.
    destruct (write_permeability_qp_ok h s _ K Hlt) as (a & Ea & Ew).
    exists [], (set_permeability_qp s a). repeat split; auto.
    + unfold write_permeability_qp, bind, get, put in Ew. unfold_call.
      rewrite HF', HP', HK'; simpl. rewrite Ea. reflexivity.
    + simpl. rewrite (assign_length _ _ _ _ Ea). assumption.
    + eapply published_after_write; eauto.
    + intros h0 H0. unfold published in *; simpl.
      destruct (Nat.eq_dec (_qp h0) (_qp h)) as [->|Hne].
      * eapply assign_same; eauto.
      * rewrite (assign_other _ _ _ _ _ Ea Hne). assumption.
  - exists tr, this'. auto.
Qed.

(** C6. From construction on, and after any run of calls (completed or
    aborted), both derivative fields hold the empty sequence at every
    quadrature point. *)
Theorem C6_derivative_fields_empty :
  forall (getUserObject : UserObjectName -> Exc CartesianLocalCoordinateSystem)
         (n_qp : nat) (parameters : InputParameters) (this0 : t),
    construct getUserObject n_qp parameters = Ok this0 ->
    forall (hs : list Host),
      let this := snd (fst (run computeQpProperties hs this0)) in
      List.length (_dpermeability_qp_dvar this) = n_qp /\
      List.length (_dpermeability_qp_dgradvar this) = n_qp /\
      forall i, (i < n_qp)%nat ->
        nth_error (_dpermeability_qp_dvar this) i = Some [] /\
        nth_error (_dpermeability_qp_dgradvar this) i = Some [].
Proof.
  intros getUserObject n_qp parameters this0 Hc hs this.
  assert (H0 : _dpermeability_qp_dvar this0 = repeat [] n_qp /\
               _dpermeability_qp_dgradvar this0 = repeat [] n_qp).
  { unfold construct in Hc.
    destruct (getUserObject (local_coordinate_system parameters));
      inversion Hc; subst; simpl. split; reflexivity. }
  assert (H : _dpermeability_qp_dvar this = repeat [] n_qp /\
              _dpermeability_qp_dgradvar this = repeat [] n_qp).
  { subst this.
    destruct (run computeQpProperties hs this0) as [[tr s] r] eqn:E; simpl.
    revert E H0.
    apply (@run_preserves t computeQpProperties
             (fun s => _dpermeability_qp_dvar s = repeat [] n_qp /\
                       _dpermeability_qp_dgradvar s = repeat [] n_qp)).
    intros h s0 tr0 s0' r0 E0 I0.
    destruct (computeQpProperties_effect _ _ _ _ _ E0) as [->|(v & a & _ & ->)];
      simpl; assumption. }
  destruct H as [-> ->]. rewrite !repeat_length.
  repeat split; auto; apply nth_error_repeat; assumption.
Qed.

(** ** OpalinusPermeabilityTensor: construction *)

Lemma rotated_tensor_symmetric (Rm T : RankTwoTensor) :
  symmetric T ->
  symmetric (tensor_mul (tensor_mul Rm T) (transpose Rm)).
Proof.
  unfold symmetric. destruct Rm, T; unfold transpose, tensor_mul; simpl.
  intros H; injection H; intros; subst. f_equal; ring.
Qed.

(** C2. When the named local coordinate system resolves to a collaborator
    with rotation [R], construction succeeds and stores
    [R * diag(k1, k2, k3) * R^T], a symmetric tensor.  This holds for every
    [R], in particular for an orthogonal [R] of determinant [+1]. *)
Theorem C2_stored_tensor_is_rotated_diagonal :
  forall (getUserObject : UserObjectName -> Exc CartesianLocalCoordinateSystem)
         (n_qp : nat) (parameters : InputParameters)
         (cs : CartesianLocalCoordinateSystem),
    getUserObject (local_coordinate_system parameters) = Ok cs ->
    let Rm := rotation cs in
    let k1 := permeability1 parameters in
    let k2 := permeability2 parameters in
    let k3 := permeability3 parameters in
    exists this,
      construct getUserObject n_qp parameters = Ok this /\
      _input_permeability this =
        tensor_mul (tensor_mul Rm (diag k1 k2 k3)) (transpose Rm) /\
      symmetric (_input_permeability this).
Proof.
  intros getUserObject n_qp parameters cs Hcs Rm k1 k2 k3.
  unfold construct. rewrite Hcs.
  eexists; split; [reflexivity|]. simpl. split.
  - reflexivity.
  - apply rotated_tensor_symmetric. reflexivity.
Qed.

End Permeability.

(** ** OpalinusElasticityTensor: single calls *)

Section Elasticity.
Import OpalinusElasticityTensor.

Lemma write_ok {A} (field : t -> list A) (set : t -> list A -> t)
    (h : Host) (this : t) (i : nat) (v : A) :
  (i < List.length (field this))%nat ->
  exists a,
    assign (field this) i v = Some a /\
    write field set i v h this = ([], set this a, Ok tt).
Proof.
  intros Hlt. destruct (assign_in_range _ _ v Hlt) as [a E].
  exists a. split; [assumption|].
  unfold write, bind, get, put. rewrite E. reflexivity.
Qed.

Lemma publish_elasticity_tensor_plain (h : Host) (this : t) :
  _prefactor_function this = None ->
  (_qp h < List.length (_elasticity_tensor this))%nat ->
  exists a,
    assign (_elasticity_tensor this) (_qp h) (_Cijkl this) = Some a /\
    publish_elasticity_tensor h this =
      ([], set_elasticity_tensor this a, Ok tt).
Proof.
  intros Hpf Hlt.
  destruct (write_ok _elasticity_tensor set_elasticity_tensor h this _
              (_Cijkl this) Hlt) as (a & Ea & Ew).
  exists a. split; [assumption|].
  unfold write, bind, get, put in Ew. unfold_call.
  rewrite Hpf. rewrite Ea. reflexivity.
Qed.

Lemma publish_elasticity_tensor_scaled (h : Host) (this : t)
    (Fn : FunctionName) (p : Point) (s : Real) :
  _prefactor_function this = Some Fn ->
  nth_error (_q_point h) (_qp h) = Some p ->
  function_value h Fn (_t h) p = Ok s ->
  (_qp h < List.length (_elasticity_tensor this))%nat ->
  exists a,
    assign (_elasticity_tensor this) (_qp h)
           (rank4_scale (_Cijkl this) s) = Some a /\
    publish_elasticity_tensor h this =
      ([FunctionEval Fn (_t h) p], set_elasticity_tensor this a, Ok tt).
Proof.
  intros Hpf Hp Hs Hlt.
  destruct (write_ok _elasticity_tensor set_elasticity_tensor h this _
              (rank4_scale (_Cijkl this) s) Hlt) as (a & Ea & Ew).
  exists a. split; [assumption|].
  unfold write, bind, get, put in Ew. unfold_call.
  rewrite Hpf, Hp; simpl. rewrite Hs; simpl. rewrite Ea. reflexivity.
Qed.

Lemma publish_local_axes_ok (h : Host) (this : t) :
  (_qp h < List.length (_first_local_axis this))%nat ->
  (_qp h < List.length (_second_local_axis this))%nat ->
  (_qp h < List.length (_normal_local_axis this))%nat ->
  let Rm := _geological_rotation this in
  exists a b c,
    assign (_first_local_axis this) (_qp h) (row0 Rm) = Some a /\
    assign (_second_local_axis this) (_qp h) (row1 Rm) = Some b /\
    assign (_normal_local_axis this) (_qp h) (row2 Rm) = Some c /\
    publish_local_axes h this =
      ([], set_normal_local_axis
             (set_second_local_axis (set_first_local_axis this a) b) c,
       Ok tt).
Proof.
  intros H1 H2 H3 Rm.
  destruct (assign_in_range _ _ (row0 Rm) H1) as [a Ea].
  destruct (assign_in_range _ _ (row1 Rm) H2) as [b Eb].
  destruct (assign_in_range _ _ (row2 Rm) H3) as [c Ec].
  exists a, b, c. repeat split; auto.
  unfold_call. fold Rm. rewrite Ea; simpl. rewrite Eb; simpl.
  rewrite Ec; simpl. reflexivity.
Qed.

(** A call in which the tensor part publishes [T] completes, and leaves
    [T] and the three rows of the rotation in the current slots; the
    rotation, the prefactor handle and the number of slots are kept, as is
    every other slot of the axis fields. *)
Lemma computeQpProperties_ok (h : Host) (this : t) (T : RankFourTensor)
    (tr : list Event) (a : list RankFourTensor) :
  has_slot this (_qp h) ->
  assign (_elasticity_tensor this) (_qp h) T = Some a ->
  publish_elasticity_tensor h this = (tr, set_elasticity_tensor this a, Ok tt) ->
  let Rm := _geological_rotation this in
  exists this',
    computeQpProperties h this = (tr, this', Ok tt) /\
    published this' (_qp h) = Some T /\
    published_axes this' (_qp h) =
      (Some (row0 Rm), Some (row1 Rm), Some (row2 Rm)) /\
    _geological_rotation this' = Rm /\
    _Cijkl this' = _Cijkl this /\
    _prefactor_function this' = _prefactor_function this /\
    (forall i, has_slot this' i <-> has_slot this i) /\
    (forall j, j <> _qp h -> published_axes this' j = published_axes this j).
Proof.
  intros (H0 & H1 & H2 & H3) Ea Et Rm.
  destruct (publish_local_axes_ok h (set_elasticity_tensor this a) H1 H2 H3)
    as (b & c & d & Eb & Ec & Ed & Ex).
  simpl in Eb, Ec, Ed. fold Rm in Eb, Ec, Ed.
  eexists. split.
  - unfold computeQpProperties, bind. rewrite Et, Ex.
    rewrite app_nil_r. reflexivity.
  - unfold published, published_axes, has_slot; simpl.
    rewrite (assign_same _ _ _ _ Ea), (assign_same _ _ _ _ Eb),
      (assign_same _ _ _ _ Ec), (assign_same _ _ _ _ Ed).
    rewrite (assign_length _ _ _ _ Ea), (assign_length _ _ _ _ Eb),
      (assign_length _ _ _ _ Ec), (assign_length _ _ _ _ Ed).
    repeat split; auto; try tauto.
    intros j Hj.
    rewrite (assign_other _ _ _ _ _ Eb Hj), (assign_other _ _ _ _ _ Ec Hj),
      (assign_other _ _ _ _ _ Ed Hj). reflexivity.
Qed.

(** C8. In a call whose host state gives the current quadrature point a
    slot: without a prefactor function, the call completes, consults no
    collaborator and publishes the stored tensor [C] itself; with a
    prefactor function that returns [s] at the physical coordinates of the
    current point and the current time, the call evaluates exactly that and
    publishes the tensor whose coefficients are those of [C] times [s]. *)
Theorem C8_elasticity_tensor_published :
  forall (h : Host) (this : t),
    has_slot this (_qp h) ->
    (_prefactor_function this = None ->
     exists this',
       computeQpProperties h this = ([], this', Ok tt) /\
       published this' (_qp h) = Some (_Cijkl this)) /\
    (forall (Fn : FunctionName) (p : Point) (s : Real),
       _prefactor_function this = Some Fn ->
       nth_error (_q_point h) (_qp h) = Some p ->
       function_value h Fn (_t h) p = Ok s ->
       exists this' T,
         computeQpProperties h this =
           ([FunctionEval Fn (_t h) p], this', Ok tt) /\
         published this' (_qp h) = Some T /\
         forall i j k l, T i j k l = _Cijkl this i j k l * s).
Proof.
  intros h this Hslot. split.
  - intros Hpf.
    destruct (publish_elasticity_tensor_plain h this Hpf (proj1 Hslot))
      as (a & Ea & Et).
    destruct (computeQpProperties_ok _ _ _ _ _ Hslot Ea Et)
      as (this' & E & Hpub & _).
    exists this'. auto.
  - intros Fn p s Hpf Hp Hs.
    destruct (publish_elasticity_tensor_scaled h this _ _ _ Hpf Hp Hs
                (proj1 Hslot)) as (a & Ea & Et).
    destruct (computeQpProperties_ok _ _ _ _ _ Hslot Ea Et)
      as (this' & E & Hpub & _).
    exists this', (rank4_scale (_Cijkl this) s). repeat split; auto.
Qed.

(** ** OpalinusElasticityTensor: the local axes *)

(** The rows of an orthogonal tensor of determinant [+1] are unit vectors,
    pairwise orthogonal, and the third is the cross product of the first
    two: [|r2 - r0 x r1|^2 = |r2|^2 - 2 det R + |r0|^2 |r1|^2 - (r0.r1)^2]. *)
Lemma rows_right_handed_orthonormal (Rm : RankTwoTensor) :
  orthogonal Rm -> det Rm = 1 ->
  right_handed_orthonormal (row0 Rm) (row1 Rm) (row2 Rm).
Proof.
  destruct Rm as [a1 a2 a3 b1 b2 b3 c1 c2 c3].
  unfold orthogonal, det, right_handed_orthonormal, row0, row1, row2,
    tensor_mul, transpose, identity_tensor, dot, cross; simpl.
  intros Ho Hd.
  injection Ho as Haa Hab Hac Hba Hbb Hbc Hca Hcb Hcc.
  assert (Hz : (c1 - (a2 * b3 - a3 * b2)) * (c1 - (a2 * b3 - a3 * b2)) +
               (c2 - (a3 * b1 - a1 * b3)) * (c2 - (a3 * b1 - a1 * b3)) +
               (c3 - (a1 * b2 - a2 * b1)) * (c3 - (a1 * b2 - a2 * b1)) = 0).
  { transitivity
      ((c1 * c1 + c2 * c2 + c3 * c3)
       - 2 * (a1 * (b2 * c3 - b3 * c2) - a2 * (b1 * c3 - b3 * c1)
              + a3 * (b1 * c2 - b2 * c1))
       + ((a1 * a1 + a2 * a2 + a3 * a3) * (b1 * b1 + b2 * b2 + b3 * b3)
          - (a1 * b1 + a2 * b2 + a3 * b3) * (a1 * b1 + a2 * b2 + a3 * b3))).
    - ring.
    - rewrite Hcc, Hd, Haa, Hbb, Hab. ring. }
  destruct (sum_of_squares_zero _ _ _ Hz) as (Z1 & Z2 & Z3).
  repeat split; try lra.
  apply Rminus_diag_uniq in Z1, Z2, Z3. rewrite Z1, Z2, Z3. reflexivity.
Qed.

(** Over a run in which every host state gives its quadrature point a
    slot and lets the prefactor function (if any) return, every call
    completes and, after the run, the three axis fields hold at every
    quadrature point visited the first, second and third row of the
    geological rotation.  If that tensor is orthogonal with determinant
    [+1], the three rows are a right-handed orthonormal triad. *)
Lemma local_axes_after_run :
  forall (this : t) (hs : list Host),
    let Rm := _geological_rotation this in
    orthogonal Rm -> det Rm = 1 ->
    Forall (fun h => has_slot this (_qp h) /\ prefactor_evaluates this h) hs ->
    exists tr this',
      run computeQpProperties hs this = (tr, this', Ok tt) /\
      (forall h, In h hs ->
         published_axes this' (_qp h) =
           (Some (row0 Rm), Some (row1 Rm), Some (row2 Rm))) /\
      List.length (row0 Rm) = 3%nat /\
      List.length (row1 Rm) = 3%nat /\
      List.length (row2 Rm) = 3%nat /\
      right_handed_orthonormal (row0 Rm) (row1 Rm) (row2 Rm).
Proof.
  intros this hs Rm Ho Hd Hadm.
  destruct (@run_establishes t computeQpProperties
              (fun s => _geological_rotation s = Rm /\
                        _prefactor_function s = _prefactor_function this /\
                        forall i, has_slot s i <-> has_slot this i)
              (fun h => has_slot this (_qp h) /\ prefactor_evaluates this h)
              (fun h s => published_axes s (_qp h) =
                          (Some (row0 Rm), Some (row1 Rm), Some (row2 Rm))))
    with (hs := hs) (s := this)
    as (tr & this' & E & _ & _ & Hall); auto.
  - intros h s (HR & Hpf & Hs) (Hslot & Hev).
    apply Hs in Hslot.
    assert (Hstep : exists T tr a,
               assign (_elasticity_tensor s) (_qp h) T = Some a /\
               publish_elasticity_tensor h s =
                 (tr, set_elasticity_tensor s a, Ok tt)).
    { unfold prefactor_evaluates in Hev. rewrite <- Hpf in Hev.
      destruct (_prefactor_function s) as [Fn|] eqn:Es.
      - destruct Hev as (p & x & Hp & Hx).
        destruct (publish_elasticity_tensor_scaled h s _ _ _ Es Hp Hx
                    (proj1 Hslot)) as (a & Ea & Et). eauto.
      - destruct (publish_elasticity_tensor_plain h s Es (proj1 Hslot))
          as (a & Ea & Et). eauto. }
    destruct Hstep as (T & tr & a & Ea & Et).
    destruct (computeQpProperties_ok _ _ _ _ _ Hslot Ea Et)
      as (s' & E & _ & Hax & HR' & _ & Hpf' & Hs' & Hother).
    rewrite HR in Hax, HR'.
    exists tr, s'.
    split; [assumption|]. split; [|split; [assumption|]].
    + split; [assumption|]. split; [congruence|].
      intros i. rewrite Hs'. apply Hs.
    + intros h0 H0.
      destruct (Nat.eq_dec (_qp h0) (_qp h)) as [->|Hne]; [assumption|].
      rewrite (Hother _ Hne). assumption.
  - split; [reflexivity|]. split; [reflexivity|]. intros i; reflexivity.
  - exists tr, this'. split; [assumption|]. split; [assumption|].
    repeat (split; [reflexivity|]).
    apply rows_right_handed_orthonormal; assumption.
Qed.

(** ** Rotations built from angles *)

Lemma tensor_mul_transpose (A B : RankTwoTensor) :
  transpose (tensor_mul A B) = tensor_mul (transpose B) (transpose A).
Proof. unfold transpose, tensor_mul; simpl. f_equal; ring. Qed.

Lemma tensor_mul_regroup (A B C D : RankTwoTensor) :
  tensor_mul (tensor_mul A B) (tensor_mul C D) =
  tensor_mul A (tensor_mul (tensor_mul B C) D).
Proof. unfold tensor_mul; simpl. f_equal; ring. Qed.

Lemma tensor_mul_identity_l (A : RankTwoTensor) :
  tensor_mul identity_tensor A = A.
Proof. destruct A. unfold tensor_mul, identity_tensor; simpl. f_equal; ring. Qed.

Lemma det_tensor_mul (A B : RankTwoTensor) :
  det (tensor_mul A B) = det A * det B.
Proof. unfold det, tensor_mul, Real; simpl. ring. Qed.

Lemma orthogonal_tensor_mul (A B : RankTwoTensor) :
  orthogonal A -> orthogonal B -> orthogonal (tensor_mul A B).
Proof.
  unfold orthogonal. intros HA HB.
  rewrite tensor_mul_transpose, tensor_mul_regroup, HB,
    tensor_mul_identity_l.
  exact HA.
Qed.

Lemma axis_rotation_orthogonal (a : dir) (theta : Real) :
  orthogonal (axis_rotation a theta).
Proof.
  pose proof (sin2_cos2 theta) as H. unfold Rsqr in H.
  unfold orthogonal, tensor_mul, transpose, identity_tensor.
  destruct a; simpl; f_equal; try ring;
    ring_simplify; rewrite <- H; ring.
Qed.

Lemma axis_rotation_det (a : dir) (theta : Real) :
  det (axis_rotation a theta) = 1.
Proof.
  pose proof (sin2_cos2 theta) as H. unfold Rsqr in H.
  unfold det. destruct a; simpl; unfold Real;
    ring_simplify; rewrite <- H; ring.
Qed.

(** Whatever the angle convention and the angles, the rotation derived
    from them is orthogonal and has determinant [+1]. *)
Lemma rotation_from_angles_proper (conv : AngleConvention)
    (angles : RealVectorValue) :
  orthogonal (rotation_from_angles conv angles) /\
  det (rotation_from_angles conv angles) = 1.
Proof.
  unfold rotation_from_angles. split.
  - repeat apply orthogonal_tensor_mul; apply axis_rotation_orthogonal.
  - rewrite !det_tensor_mul, !axis_rotation_det. unfold Real. ring.
Qed.

(** C9. For an evaluator as constructed (its rotation [R] derived from
    the three geological angles, in whatever angle convention), over a run
    in which every host state names an existing quadrature point and lets
    the prefactor function (if any) return: every call completes and,
    after the run, the three axis fields hold at every quadrature point
    visited the first, second and third row of [R], the same three
    length-3 sequences everywhere; the three are unit vectors, pairwise
    orthogonal, with first x second = normal. *)
Theorem C9_local_axes_published :
  forall (conv : AngleConvention)
         (local_stiffness :
            Real -> Real -> Real -> Real -> Real -> RankFourTensor)
         (n_qp : nat) (parameters : InputParameters) (hs : list Host),
    let this := construct conv local_stiffness n_qp parameters in
    let Rm := rotation_from_angles conv (geological_angles parameters) in
    Forall (fun h => (_qp h < n_qp)%nat /\ prefactor_evaluates this h) hs ->
    exists tr this',
      run computeQpProperties hs this = (tr, this', Ok tt) /\
      (forall h, In h hs ->
         published_axes this' (_qp h) =
           (Some (row0 Rm), Some (row1 Rm), Some (row2 Rm))) /\
      List.length (row0 Rm) = 3%nat /\
      List.length (row1 Rm) = 3%nat /\
      List.length (row2 Rm) = 3%nat /\
      right_handed_orthonormal (row0 Rm) (row1 Rm) (row2 Rm).
Proof.
  intros conv local_stiffness n_qp parameters hs this Rm Hadm.
  destruct (rotation_from_angles_proper conv (geological_angles parameters))
    as [Ho Hd].
  apply (local_axes_after_run this hs Ho Hd).
  eapply Forall_impl; [|exact Hadm].
  intros h [Hlt Hev]. split; [|exact Hev].
  unfold has_slot, this, construct, declareProperty; simpl.
  rewrite !repeat_length. auto.
Qed.

End Elasticity.

(** ** A zero prefactor *)

Lemma permeability_zero_prefactor (h : Host)
    (this : OpalinusPermeabilityTensor.t) :
  (_qp h < List.length (OpalinusPermeabilityTensor._permeability_qp this))%nat ->
  (forall e, OpalinusPermeabilityTensor.functor_result this h
             <> Some (Raise e)) ->
  OpalinusPermeabilityTensor.functor_result this h = Some (Ok 0) \/
  OpalinusPermeabilityTensor.matprop_result this h = Some (Ok 0) ->
  exists tr this',
    OpalinusPermeabilityTensor.computeQpProperties h this
      = (tr, this', Ok tt) /\
    OpalinusPermeabilityTensor.published this' (_qp h) = Some zero_tensor.
Proof.
  intros Hlt Hok Hzero.
  destruct (write_permeability_qp_ok h this _
              (tensor_scale
                 (OpalinusPermeabilityTensor._input_permeability this) 0) Hlt)
    as (a & Ea & _).
  assert (Hpub : OpalinusPermeabilityTensor.published
                   (OpalinusPermeabilityTensor.set_permeability_qp this a)
                   (_qp h) = Some zero_tensor).
  { rewrite <- (tensor_scale_zero
                  (OpalinusPermeabilityTensor._input_permeability this)).
    eapply published_after_write; eauto. }
  unfold OpalinusPermeabilityTensor.functor_result,
    OpalinusPermeabilityTensor.matprop_result in *.
  unfold_call.
  destruct (OpalinusPermeabilityTensor._prefactor_functor this) as [F|];
    destruct (OpalinusPermeabilityTensor._prefactor_matprop this) as [P|];
    simpl.
  - (* both *)
    destruct (nth_error (_q_point h) (_qp h)) as [p|];
      [|exfalso; eapply Hok; reflexivity].
    simpl. fold (OpalinusPermeabilityTensor.functor_arg h p).
    destruct (functor_eval h F (OpalinusPermeabilityTensor.functor_arg h p)
                (determineState h)) as [f|e];
      [|exfalso; eapply Hok; reflexivity].
    simpl. destruct (Req_dec_T f 0) as [->|Hne].
    + rewrite Real_ne_same; simpl. rewrite Ea. eauto.
    + rewrite (Real_ne_diff _ _ Hne); simpl.
      destruct Hzero as [Hz|Hz]; [congruence|].
      injection Hz as Hz. rewrite Hz; simpl.
      replace (f * 0) with 0 by ring. rewrite Ea. eauto.
  - (* functor only *)
    destruct (nth_error (_q_point h) (_qp h)) as [p|];
      [|exfalso; eapply Hok; reflexivity].
    simpl. fold (OpalinusPermeabilityTensor.functor_arg h p).
    destruct Hzero as [Hz|Hz]; [|discriminate].
    injection Hz as Hz. rewrite Hz; simpl. rewrite Ea. eauto.
  - (* material property only *)
    destruct Hzero as [Hz|Hz]; [discriminate|].
    injection Hz as Hz.
    rewrite (Real_ne_diff _ _ R1_neq_R0); simpl. rewrite Hz; simpl.
    replace (1 * 0) with 0 by ring. rewrite Ea. eauto.
  - destruct Hzero; discriminate.
Qed.

Lemma elasticity_zero_prefactor (h : Host)
    (this : OpalinusElasticityTensor.t) :
  OpalinusElasticityTensor.has_slot this (_qp h) ->
  OpalinusElasticityTensor.function_result this h = Some (Ok 0) ->
  exists tr this' T,
    OpalinusElasticityTensor.computeQpProperties h this
      = (tr, this', Ok tt) /\
    OpalinusElasticityTensor.published this' (_qp h) = Some T /\
    forall i j k l, T i j k l = 0.
Proof.
  intros Hslot Hz.
  unfold OpalinusElasticityTensor.function_result in Hz.
  destruct (OpalinusElasticityTensor._prefactor_function this)
    as [Fn|] eqn:Hpf; [|discriminate].
  destruct (nth_error (_q_point h) (_qp h)) as [p|] eqn:Hp;
    [|discriminate].
  injection Hz as Hz.
  destruct (publish_elasticity_tensor_scaled h this _ _ _ Hpf Hp Hz
              (proj1 Hslot)) as (a & Ea & Et).
  destruct (computeQpProperties_ok _ _ _ _ _ Hslot Ea Et)
    as (this' & E & Hpub & _).
  exists [FunctionEval Fn (_t h) p], this',
    (OpalinusElasticityTensor.rank4_scale
       (OpalinusElasticityTensor._Cijkl this) 0).
  split; [assumption|]. split; [assumption|].
  intros i j k l. unfold OpalinusElasticityTensor.rank4_scale.
  apply Rmult_0_r.
Qed.

(** C7. In either evaluator, a call in which a configured prefactor
    evaluates to [0] at the current point publishes the tensor with every
    coefficient [0].  For the permeability the prefactors are the functor
    and the material property (the functor, when configured, is assumed to
    return rather than raise); for the elasticity it is the prefactor
    function. *)
Theorem C7_zero_prefactor_publishes_zero :
  (forall (h : Host) (this : OpalinusPermeabilityTensor.t),
     (_qp h <
      List.length (OpalinusPermeabilityTensor._permeability_qp this))%nat ->
     (forall e, OpalinusPermeabilityTensor.functor_result this h
                <> Some (Raise e)) ->
     OpalinusPermeabilityTensor.functor_result this h = Some (Ok 0) \/
     OpalinusPermeabilityTensor.matprop_result this h = Some (Ok 0) ->
     exists tr this',
       OpalinusPermeabilityTensor.computeQpProperties h this
         = (tr, this', Ok tt) /\
       OpalinusPermeabilityTensor.published this' (_qp h)
         = Some zero_tensor) /\
  (forall (h : Host) (this : OpalinusElasticityTensor.t),
     OpalinusElasticityTensor.has_slot this (_qp h) ->
     OpalinusElasticityTensor.function_result this h = Some (Ok 0) ->
     exists tr this' T,
       OpalinusElasticityTensor.computeQpProperties h this
         = (tr, this', Ok tt) /\
       OpalinusElasticityTensor.published this' (_qp h) = Some T /\
       forall i j k l, T i j k l = 0).
Proof.
  split.
  - exact permeability_zero_prefactor.
  - exact elasticity_zero_prefactor.
Qed.

(** * The scenario, through the theorems *)

Section ScenarioPermeability.
Import OpalinusPermeabilityTensor Scenario.
Local Open Scope string_scope.

(** The functor returns [0] and the material property throws on read:
    the call completes and publishes the zero tensor at point 1. *)
Lemma C1_witness :
  exists tr this',
    computeQpProperties
      (host 1%nat (Ok 0) (Raise (CollaboratorError 7%nat)))
      (permeability (Some "f") (Some "m")) = (tr, this', Ok tt) /\
    (forall Q i, ~ In (MatPropRead Q i) tr) /\
    published this' 1%nat = Some zero_tensor.
Proof.
  destruct (C1_zero_functor_skips_matprop
              (host 1%nat (Ok 0) (Raise (CollaboratorError 7%nat)))
              (permeability (Some "f") (Some "m"))
              "f" "m" (mkPoint 1 0 0))
    as (tr & this' & E & _ & Hno & Hpub).
  - reflexivity.
  - reflexivity.
  - reflexivity.
  - simpl. lia.
  - reflexivity.
  - exists tr, this'. auto.
Defined.

(** The identity frame resolves: the stored tensor is symmetric. *)
Lemma C2_witness :
  exists this,
    construct getUserObject 2%nat (parameters None None) = Ok this /\
    symmetric (_input_permeability this).
Proof.
  destruct (C2_stored_tensor_is_rotated_diagonal
              getUserObject 2%nat (parameters None None) frame)
    as (this & E & _ & Hsym).
  - reflexivity.
  - exists this. auto.
Defined.

(** Functor [2], material property [1/2]. *)
Lemma C3_witness :
  exists this',
    computeQpProperties (host 1%nat (Ok 2) (Ok (/ 2)))
                        (permeability (Some "f") (Some "m"))
      = ([FunctorEval "f" (functor_arg (host 1%nat (Ok 2) (Ok (/ 2)))
                                       (mkPoint 1 0 0)) currentState;
          MatPropRead "m" 1%nat], this', Ok tt) /\
    published this' 1%nat =
      Some (tensor_scale
              (_input_permeability (permeability (Some "f") (Some "m")))
              (2 * / 2)).
Proof.
  destruct (C3_product_of_both_prefactors
              (host 1%nat (Ok 2) (Ok (/ 2)))
              (permeability (Some "f") (Some "m"))
              "f" "m" (mkPoint 1 0 0) 2 (/ 2))
    as (this' & E & Hpub).
  - reflexivity.
  - reflexivity.
  - reflexivity.
  - simpl. lia.
  - reflexivity.
  - lra.
  - reflexivity.
  - exists this'. auto.
Defined.

(** No prefactor, both points visited. *)
Lemma C4_witness :
  exists tr this',
    run computeQpProperties
        [host 0%nat (Ok 2) (Ok 3); host 1%nat (Ok 5) (Ok 7)]
        (permeability None None) = (tr, this', Ok tt) /\
    published this' 0%nat = Some (_input_permeability (permeability None None)) /\
    published this' 1%nat = Some (_input_permeability (permeability None None)).
Proof.
  destruct (C4_no_prefactor_publishes_K
              (permeability None None)
              [host 0%nat (Ok 2) (Ok 3); host 1%nat (Ok 5) (Ok 7)])
    as (tr & this' & E & _ & Hall).
  - reflexivity.
  - reflexivity.
  - repeat constructor; simpl; lia.
  - exists tr, this'. split; [exact E|]. split.
    + apply (Hall (host 0%nat (Ok 2) (Ok 3))). simpl. auto.
    + apply (Hall (host 1%nat (Ok 5) (Ok 7))). simpl. auto.
Defined.

(** Material property [1/2] alone. *)
Lemma C5_witness :
  exists this',
    computeQpProperties (host 0%nat (Ok 2) (Ok (/ 2)))
                        (permeability None (Some "m"))
      = ([MatPropRead "m" 0%nat], this', Ok tt) /\
    published this' 0%nat =
      Some (tensor_scale
              (_input_permeability (permeability None (Some "m"))) (/ 2)).
Proof.
  destruct (C5_matprop_only
              (host 0%nat (Ok 2) (Ok (/ 2)))
              (permeability None (Some "m")) "m" (/ 2))
    as (this' & E & _ & Hpub).
  - reflexivity.
  - reflexivity.
  - simpl. lia.
  - reflexivity.
  - exists this'. auto.
Defined.

(** After construction and a run over both points, the derivative fields
    of point 1 are empty. *)
Lemma C6_witness :
  let this :=
    snd (fst (run computeQpProperties
                  [host 0%nat (Ok 2) (Ok 3); host 1%nat (Ok 0) (Ok 7)]
                  (permeability (Some "f") (Some "m")))) in
  nth_error (_dpermeability_qp_dvar this) 1%nat = Some [] /\
  nth_error (_dpermeability_qp_dgradvar this) 1%nat = Some [].
Proof.
  intros this.
  apply (C6_derivative_fields_empty
           getUserObject 2%nat (parameters (Some "f") (Some "m"))
           (permeability (Some "f") (Some "m"))
           eq_refl
           [host 0%nat (Ok 2) (Ok 3); host 1%nat (Ok 0) (Ok 7)]).
  lia.
Defined.

End ScenarioPermeability.

Section ScenarioElasticity.
Import Scenario.
Local Open Scope string_scope.

(** A zero functor for the permeability (the material property throws on
    read), a zero prefactor function for the elasticity. *)
Lemma C7_witness :
  (exists tr this',
     OpalinusPermeabilityTensor.computeQpProperties
       (host 1%nat (Ok 0) (Raise (CollaboratorError 7%nat)))
       (permeability (Some "f") (Some "m")) = (tr, this', Ok tt) /\
     OpalinusPermeabilityTensor.published this' 1%nat = Some zero_tensor) /\
  (exists tr this' T,
     OpalinusElasticityTensor.computeQpProperties
       (host 1%nat (Ok 0) (Ok 1)) (elasticity (Some "g"))
       = (tr, this', Ok tt) /\
     OpalinusElasticityTensor.published this' 1%nat = Some T /\
     forall i j k l, T i j k l = 0).
Proof.
  split.
  - apply (proj1 C7_zero_prefactor_publishes_zero
             (host 1%nat (Ok 0) (Raise (CollaboratorError 7%nat)))
             (permeability (Some "f") (Some "m"))).
    + simpl. lia.
    + intros e. discriminate.
    + left. reflexivity.
  - apply (proj2 C7_zero_prefactor_publishes_zero
             (host 1%nat (Ok 0) (Ok 1)) (elasticity (Some "g"))).
    + unfold OpalinusElasticityTensor.has_slot. simpl. lia.
    + reflexivity.
Defined.

(** Prefactor function returning [2] at point 1. *)
Lemma C8_witness :
  exists this' T,
    OpalinusElasticityTensor.computeQpProperties
      (host 1%nat (Ok 2) (Ok 1)) (elasticity (Some "g"))
      = ([FunctionEval "g" 0 (mkPoint 1 0 0)], this', Ok tt) /\
    OpalinusElasticityTensor.published this' 1%nat = Some T /\
    forall i j k l, T i j k l = stiffness i j k l * 2.
Proof.
  apply (proj2 (C8_elasticity_tensor_published
                  (host 1%nat (Ok 2) (Ok 1)) (elasticity (Some "g"))
                  ltac:(unfold OpalinusElasticityTensor.has_slot;
                        simpl; lia))
               "g" (mkPoint 1 0 0) 2).
  - reflexivity.
  - reflexivity.
  - reflexivity.
Defined.

(** Bedding tilted by 90 degrees, both points visited: the same triad at
    both. *)
Lemma C9_witness :
  let Rm := OpalinusElasticityTensor.rotation_from_angles
              convention (mkPoint 90 0 0) in
  exists tr this',
    run OpalinusElasticityTensor.computeQpProperties
        [host 0%nat (Ok 2) (Ok 1); host 1%nat (Ok 3) (Ok 1)]
        (OpalinusElasticityTensor.construct
           convention (fun _ _ _ _ _ => stiffness) 2%nat
           (elasticity_parameters (Some "g"))) = (tr, this', Ok tt) /\
    OpalinusElasticityTensor.published_axes this' 0%nat =
      OpalinusElasticityTensor.published_axes this' 1%nat /\
    right_handed_orthonormal
      (OpalinusElasticityTensor.row0 Rm) (OpalinusElasticityTensor.row1 Rm)
      (OpalinusElasticityTensor.row2 Rm).
Proof.
  intros Rm.
  destruct (C9_local_axes_published
              convention (fun _ _ _ _ _ => stiffness) 2%nat
              (elasticity_parameters (Some "g"))
              [host 0%nat (Ok 2) (Ok 1); host 1%nat (Ok 3) (Ok 1)])
    as (tr & this' & E & Hall & _ & _ & _ & Htriad).
  - repeat constructor; simpl; try lia.
    + exists (mkPoint 0 0 0), 2. split; reflexivity.
    + exists (mkPoint 1 0 0), 3. split; reflexivity.
  - exists tr, this'. split; [exact E|]. split; [|exact Htriad].
    exact (eq_trans
             (Hall (host 0%nat (Ok 2) (Ok 1)) (or_introl eq_refl))
             (eq_sym (Hall (host 1%nat (Ok 3) (Ok 1))
                           (or_intror (or_introl eq_refl))))).
Defined.

End ScenarioElasticity.

(** ** Assignments to a host container *)

Lemma assign_again {A} (a a' : list A) (i : nat) (v : A) :
  assign a i v = Some a' -> assign a' i v = Some a'.
Proof.
  revert i a'; induction a as [|x tl IH]; intros [|j] a' E; simpl in *;
    try discriminate.
  - inversion E; reflexivity.
  - destruct (assign tl j v) eqn:E'; [|discriminate].
    inversion E; subst; simpl. rewrite (IH j _ E'). reflexivity.
Qed.

Lemma assign_commute {A} (a a1 a2 : list A) (i j : nat) (v w : A) :
  i <> j ->
  assign a i v = Some a1 -> assign a j w = Some a2 ->
  exists a12, assign a1 j w = Some a12 /\ assign a2 i v = Some a12.
Proof.
  revert i j a1 a2; induction a as [|x tl IH]; intros [|i] [|j] a1 a2 Hne E1 E2;
    simpl in *; try discriminate; try congruence.
  - destruct (assign tl j w) eqn:Ej; [|discriminate].
    inversion E1; inversion E2; subst; simpl. rewrite Ej. eauto.
  - destruct (assign tl i v) eqn:Ei; [|discriminate].
    inversion E1; inversion E2; subst; simpl. rewrite Ei. eauto.
  - destruct (assign tl i v) eqn:Ei; [|discriminate].
    destruct (assign tl j w) eqn:Ej; [|discriminate].
    inversion E1; inversion E2; subst; simpl.
    destruct (IH i j l l0) as (a12 & H1 & H2); auto.
    rewrite H1, H2. eauto.
Qed.

Lemma assign_untouched {A} (a a' : list A) (i : nat) (v : A) (P : A -> Prop) :
  assign a i v = Some a' -> Forall P a -> P v -> Forall P a'.
Proof.
  revert i a'; induction a as [|x tl IH]; intros [|j] a' E Ha Hv;
    simpl in *; try discriminate.
  - inversion E; subst. inversion Ha; subst. constructor; assumption.
  - destruct (assign tl j v) eqn:E'; [|discriminate].
    inversion E; subst. inversion Ha; subst. constructor; eauto.
Qed.

(** * Further properties of OpalinusPermeabilityTensor *)

Section PermeabilityCalls.
Import OpalinusPermeabilityTensor.

(** The log of a call and the tensor it is about to publish (or the
    exception it is about to raise) are decided by the host state, the two
    prefactor handles and the stored tensor: for every object [s] that
    agrees with [this] on those, the call on [s] produces that log and then
    assigns that tensor to the current slot of [s]. *)
Lemma computeQpProperties_shape (h : Host) (this : t) :
  exists (tr : list Event) (r : Exc RealTensorValue),
    forall s : t,
      _prefactor_functor s = _prefactor_functor this ->
      _prefactor_matprop s = _prefactor_matprop this ->
      _input_permeability s = _input_permeability this ->
      computeQpProperties h s =
        match r with
        | Raise e => (tr, s, Raise e)
        | Ok v =>
            match assign (_permeability_qp s) (_qp h) v with
            | Some a => (tr, set_permeability_qp s a, Ok tt)
            | None => (tr, s, Raise OutOfRange)
            end
        end.
Proof.
  set (K := _input_permeability this).
  destruct (_prefactor_functor this) as [F|] eqn:HF;
    destruct (_prefactor_matprop this) as [P|] eqn:HP.
  - destruct (nth_error (_q_point h) (_qp h)) as [p|] eqn:Hp.
    + destruct (functor_eval h F (functor_arg h p) (determineState h))
        as [f|e] eqn:Hf.
      * destruct (Real_ne f 0) eqn:Hne.
        -- destruct (matprop_value h P (_qp h)) as [m|e] eqn:Hm.
           ++ exists [FunctorEval F (functor_arg h p) (determineState h);
                      MatPropRead P (_qp h)], (Ok (tensor_scale K (f * m))).
              intros s E1 E2 E3. unfold_call. rewrite E1, E2, E3; simpl. rewrite Hp; simpl.
              fold (functor_arg h p). rewrite Hf; simpl. rewrite Hne; simpl.
              rewrite Hm; simpl.
              destruct (assign (_permeability_qp s) (_qp h) _); reflexivity.
           ++ exists [FunctorEval F (functor_arg h p) (determineState h);
                      MatPropRead P (_qp h)], (Raise e).
              intros s E1 E2 E3. unfold_call. rewrite E1, E2, E3; simpl. rewrite Hp; simpl.
              fold (functor_arg h p). rewrite Hf; simpl. rewrite Hne; simpl.
              rewrite Hm; simpl. reflexivity.
        -- exists [FunctorEval F (functor_arg h p) (determineState h)],
                  (Ok (tensor_scale K f)).
           intros s E1 E2 E3. unfold_call. rewrite E1, E2, E3; simpl. rewrite Hp; simpl.
           fold (functor_arg h p). rewrite Hf; simpl. rewrite Hne; simpl.
           destruct (assign (_permeability_qp s) (_qp h) _); reflexivity.
      * exists [FunctorEval F (functor_arg h p) (determineState h)],
               (Raise e).
        intros s E1 E2 E3. unfold_call. rewrite E1, E2, E3; simpl. rewrite Hp; simpl.
        fold (functor_arg h p). rewrite Hf; simpl. reflexivity.
    + exists [], (Raise OutOfRange).
      intros s E1 E2 E3. unfold_call. rewrite E1, E2, E3; simpl. rewrite Hp; simpl. reflexivity.
  - destruct (nth_error (_q_point h) (_qp h)) as [p|] eqn:Hp.
    + destruct (functor_eval h F (functor_arg h p) (determineState h))
        as [f|e] eqn:Hf.
      * exists [FunctorEval F (functor_arg h p) (determineState h)],
               (Ok (tensor_scale K f)).
        intros s E1 E2 E3. unfold_call. rewrite E1, E2, E3; simpl. rewrite Hp; simpl.
        fold (functor_arg h p). rewrite Hf; simpl.
        destruct (assign (_permeability_qp s) (_qp h) _); reflexivity.
      * exists [FunctorEval F (functor_arg h p) (determineState h)],
               (Raise e).
        intros s E1 E2 E3. unfold_call. rewrite E1, E2, E3; simpl. rewrite Hp; simpl.
        fold (functor_arg h p). rewrite Hf; simpl. reflexivity.
    + exists [], (Raise OutOfRange).
      intros s E1 E2 E3. unfold_call. rewrite E1, E2, E3; simpl. rewrite Hp; simpl. reflexivity.
  - destruct (matprop_value h P (_qp h)) as [m|e] eqn:Hm.
    + exists [MatPropRead P (_qp h)], (Ok (tensor_scale K (1 * m))).
      intros s E1 E2 E3. unfold_call. rewrite E1, E2, E3; simpl.
      rewrite (Real_ne_diff _ _ R1_neq_R0); simpl. rewrite Hm; simpl.
      destruct (assign (_permeability_qp s) (_qp h) _); reflexivity.
    + exists [MatPropRead P (_qp h)], (Raise e).
      intros s E1 E2 E3. unfold_call. rewrite E1, E2, E3; simpl.
      rewrite (Real_ne_diff _ _ R1_neq_R0); simpl. rewrite Hm; simpl.
      reflexivity.
  - exists [], (Ok K).
    intros s E1 E2 E3. unfold_call. rewrite E1, E2, E3; simpl.
    destruct (assign (_permeability_qp s) (_qp h) _); reflexivity.
Qed.

Lemma tensor_scale_unit (T : RankTwoTensor) : tensor_scale T (1 * 1) = T.
Proof. destruct T. unfold tensor_scale; simpl. f_equal; ring. Qed.

(** The product law, for every configuration.  Let [phi] be what the
    functor returns at the current point ([1] without a functor) and [mu]
    what the material property holds there ([1] without one; any number
    when [phi = 0], since the property is then not consulted).  The call
    completes and publishes [K * (phi * mu)]. *)
Lemma product_law :
  forall (h : Host) (this : t) (phi mu : Real),
    (_qp h < List.length (_permeability_qp this))%nat ->
    (functor_result this h = None /\ phi = 1) \/
      functor_result this h = Some (Ok phi) ->
    (matprop_result this h = None /\ mu = 1) \/
      matprop_result this h = Some (Ok mu) \/
      (functor_result this h = Some (Ok phi) /\ phi = 0) ->
    exists tr this',
      computeQpProperties h this = (tr, this', Ok tt) /\
      published this' (_qp h) =
        Some (tensor_scale (_input_permeability this) (phi * mu)).
Proof.
  intros h this phi mu Hlt Hf Hm.
  set (K := _input_permeability this).
  destruct (write_permeability_qp_ok h this _ (tensor_scale K (phi * mu)) Hlt)
    as (a & Ea & _).
  assert (Hpub : published (set_permeability_qp this a) (_qp h) =
                 Some (tensor_scale K (phi * mu))).
  { eapply published_after_write; eauto. }
  unfold functor_result, matprop_result in *. unfold_call. fold K.
  destruct (_prefactor_functor this) as [F|];
    destruct (_prefactor_matprop this) as [P|]; simpl.
  - destruct (nth_error (_q_point h) (_qp h)) as [p|];
      [|destruct Hf as [[Hf _]|Hf]; discriminate].
    destruct Hf as [[Hf _]|Hf]; [discriminate|].
    injection Hf as Hf. simpl. fold (functor_arg h p). rewrite Hf; simpl.
    destruct (Req_dec_T phi 0) as [Hz|Hne].
    + subst phi. rewrite Real_ne_same; simpl.
      replace (0 * mu) with 0 in Ea by ring. rewrite Ea. eauto.
    + rewrite (Real_ne_diff _ _ Hne); simpl.
      destruct Hm as [[Hm _]|[Hm|[_ Hz]]];
        [discriminate| |contradiction].
      injection Hm as Hm. rewrite Hm; simpl. rewrite Ea. eauto.
  - destruct (nth_error (_q_point h) (_qp h)) as [p|];
      [|destruct Hf as [[Hf _]|Hf]; discriminate].
    destruct Hf as [[Hf _]|Hf]; [discriminate|].
    injection Hf as Hf. simpl. fold (functor_arg h p). rewrite Hf; simpl.
    assert (Hmu : phi * mu = phi).
    { destruct Hm as [[_ Hm]|[Hm|[_ Hz]]]; [|discriminate|];
        subst; ring. }
    rewrite Hmu in Ea. rewrite Ea. eauto.
  - destruct Hf as [[_ Hf]|Hf]; [|discriminate]. subst phi.
    destruct Hm as [[Hm _]|[Hm|[Hm _]]]; try discriminate.
    injection Hm as Hm.
    rewrite (Real_ne_diff _ _ R1_neq_R0); simpl. rewrite Hm; simpl.
    rewrite Ea. eauto.
  - destruct Hf as [[_ Hf]|Hf]; [|discriminate]. subst phi.
    destruct Hm as [[_ Hm]|[Hm|[Hm _]]]; try discriminate. subst mu.
    rewrite tensor_scale_unit in Ea, Hpub. rewrite Ea.
    rewrite tensor_scale_unit. eauto.
Qed.

(** X1. The product law, for every configuration.  Let [phi] be what the
    functor returns at the current point ([1] without a functor) and [mu]
    what the material property holds there ([1] without one; any number
    when [phi = 0], since the property is then not consulted).  The call
    completes and publishes [K * (phi * mu)]. *)
Theorem X1_product_law :
  forall (h : Host) (this : t) (phi mu : Real),
    (_qp h < List.length (_permeability_qp this))%nat ->
    (functor_result this h = None /\ phi = 1) \/
      functor_result this h = Some (Ok phi) ->
    (matprop_result this h = None /\ mu = 1) \/
      matprop_result this h = Some (Ok mu) \/
      (functor_result this h = Some (Ok phi) /\ phi = 0) ->
    exists tr this',
      computeQpProperties h this = (tr, this', Ok tt) /\
      published this' (_qp h) =
        Some (tensor_scale (_input_permeability this) (phi * mu)).
Proof. exact product_law. Qed.

(** X2. Prefactors that are all [1] at the current point change nothing:
    the call publishes the stored tensor [K] itself, as it does without
    any prefactor. *)
Theorem X2_unit_prefactor_publishes_K :
  forall (h : Host) (this : t),
    (_qp h < List.length (_permeability_qp this))%nat ->
    functor_result this h = None \/ functor_result this h = Some (Ok 1) ->
    matprop_result this h = None \/ matprop_result this h = Some (Ok 1) ->
    exists tr this',
      computeQpProperties h this = (tr, this', Ok tt) /\
      published this' (_qp h) = Some (_input_permeability this).
Proof.
  intros h this Hlt Hf Hm.
  set (K := _input_permeability this).
  destruct (write_permeability_qp_ok h this _ K Hlt) as (a & Ea & _).
  assert (Hpub : published (set_permeability_qp this a) (_qp h) = Some K).
  { eapply published_after_write; eauto. }
  assert (H1 : tensor_scale K 1 = K).
  { destruct K. unfold tensor_scale; simpl. f_equal; ring. }
  unfold functor_result, matprop_result in *. unfold_call. fold K.
  destruct (_prefactor_functor this) as [F|];
    destruct (_prefactor_matprop this) as [P|]; simpl.
  - destruct (nth_error (_q_point h) (_qp h)) as [p|];
      [|destruct Hf as [Hf|Hf]; discriminate].
    destruct Hf as [Hf|Hf]; [discriminate|].
    destruct Hm as [Hm|Hm]; [discriminate|].
    injection Hf as Hf. injection Hm as Hm.
    simpl. fold (functor_arg h p). rewrite Hf; simpl.
    rewrite (Real_ne_diff _ _ R1_neq_R0); simpl. rewrite Hm; simpl.
    rewrite tensor_scale_unit. rewrite Ea. eauto.
  - destruct (nth_error (_q_point h) (_qp h)) as [p|];
      [|destruct Hf as [Hf|Hf]; discriminate].
    destruct Hf as [Hf|Hf]; [discriminate|].
    injection Hf as Hf.
    simpl. fold (functor_arg h p). rewrite Hf; simpl.
    rewrite H1. rewrite Ea. eauto.
  - destruct Hm as [Hm|Hm]; [discriminate|]. injection Hm as Hm.
    rewrite (Real_ne_diff _ _ R1_neq_R0); simpl. rewrite Hm; simpl.
    rewrite tensor_scale_unit. rewrite Ea. eauto.
  - rewrite Ea. eauto.
Qed.

(** X3. An exception raised by the functor is the outcome of the call:
    the object is left exactly as it was (nothing is published), and the
    material property is not read. *)
Theorem X3_functor_exception_propagates :
  forall (h : Host) (this : t) (F : MooseFunctorName) (p : Point) (e : exn),
    _prefactor_functor this = Some F ->
    nth_error (_q_point h) (_qp h) = Some p ->
    functor_eval h F (functor_arg h p) (determineState h) = Raise e ->
    computeQpProperties h this =
      ([FunctorEval F (functor_arg h p) (determineState h)], this, Raise e).
Proof.
  intros h this F p e HF Hp Hf. unfold_call. rewrite HF; simpl.
  rewrite Hp; simpl. fold (functor_arg h p). rewrite Hf; simpl. reflexivity.
Qed.

(** X4. When the material property is consulted (no functor, or a functor
    that returned a nonzero value) and reading it raises, that exception
    is the outcome of the call and the object is left exactly as it was. *)
Theorem X4_matprop_exception_propagates :
  forall (h : Host) (this : t) (P : MaterialPropertyName) (e : exn),
    _prefactor_matprop this = Some P ->
    matprop_value h P (_qp h) = Raise e ->
    functor_result this h = None \/
      (exists f, functor_result this h = Some (Ok f) /\ f <> 0) ->
    exists tr,
      computeQpProperties h this = (tr, this, Raise e) /\
      In (MatPropRead P (_qp h)) tr.
Proof.
  intros h this P e HP Hm Hf.
  unfold functor_result in Hf. unfold_call. rewrite HP.
  destruct (_prefactor_functor this) as [F|]; simpl.
  - destruct (nth_error (_q_point h) (_qp h)) as [p|];
      [|destruct Hf as [Hf|(f & Hf & Hne)]; discriminate].
    destruct Hf as [Hf|(f & Hf & Hne)]; [discriminate|].
    injection Hf as Hf. simpl. fold (functor_arg h p). rewrite Hf; simpl.
    rewrite (Real_ne_diff _ _ Hne); simpl. rewrite Hm; simpl.
    eexists; split; [reflexivity|]. simpl. auto.
  - rewrite (Real_ne_diff _ _ R1_neq_R0); simpl. rewrite Hm; simpl.
    eexists; split; [reflexivity|]. simpl. auto.
Qed.

(** X5. Which collaborators a call consults.  The material property is
    read only under the configured handle, only at the current quadrature
    point, and exactly when there is no functor or the functor returned a
    nonzero value; the functor is evaluated exactly when it is configured
    and the current point exists, at the current element, point and state;
    no function is evaluated; at most two collaborator calls are made. *)
Theorem X5_collaborators_consulted :
  forall (h : Host) (this : t),
    let tr := fst (fst (computeQpProperties h this)) in
    (forall Q i,
       In (MatPropRead Q i) tr <->
       _prefactor_matprop this = Some Q /\ i = _qp h /\
       (functor_result this h = None \/
        exists f, functor_result this h = Some (Ok f) /\ f <> 0)) /\
    (forall G a st,
       In (FunctorEval G a st) tr <->
       _prefactor_functor this = Some G /\
       exists p, nth_error (_q_point h) (_qp h) = Some p /\
                 a = functor_arg h p /\ st = determineState h) /\
    (forall Fn t0 p, ~ In (FunctionEval Fn t0 p) tr) /\
    (List.length tr <= 2)%nat.
Proof.
  intros h this tr. subst tr.
  unfold functor_result. unfold_call.
  destruct (_prefactor_functor this) as [F|];
    destruct (_prefactor_matprop this) as [P|]; simpl.
  - destruct (nth_error (_q_point h) (_qp h)) as [p|]; simpl;
      [|log_solve].
    fold (functor_arg h p).
    destruct (functor_eval h F (functor_arg h p) (determineState h))
      as [f|e]; simpl; [|log_solve].
    destruct (Req_dec_T f 0) as [Hz|Hne].
    + subst f. rewrite Real_ne_same; simpl.
      destruct (assign _ _ _); simpl; log_solve.
    + rewrite (Real_ne_diff _ _ Hne); simpl.
      destruct (matprop_value h P (_qp h)); simpl;
        try (destruct (assign _ _ _); simpl); log_solve.
  - destruct (nth_error (_q_point h) (_qp h)) as [p|]; simpl;
      [|log_solve].
    fold (functor_arg h p).
    destruct (functor_eval h F (functor_arg h p) (determineState h))
      as [f|e]; simpl;
      try (destruct (assign _ _ _); simpl); log_solve.
  - rewrite (Real_ne_diff _ _ R1_neq_R0); simpl.
    destruct (matprop_value h P (_qp h)); simpl;
      try (destruct (assign _ _ _); simpl); log_solve.
  - destruct (assign _ _ _); simpl; log_solve.
Qed.

(** X6. Calling again in the same host state changes nothing: the second
    call returns the same log and outcome as the first and leaves the
    object as the first call left it. *)
Theorem X6_call_idempotent :
  forall (h : Host) (this : t),
    computeQpProperties h (snd (fst (computeQpProperties h this))) =
    computeQpProperties h this.
Proof.
  intros h this.
  destruct (computeQpProperties_shape h this) as (tr & r & Hshape).
  pose proof (Hshape this eq_refl eq_refl eq_refl) as E0.
  destruct r as [v|e].
  - destruct (assign (_permeability_qp this) (_qp h) v) as [a|] eqn:Ea.
    + rewrite E0; simpl.
      rewrite (Hshape (set_permeability_qp this a) eq_refl eq_refl eq_refl).
      simpl. rewrite (assign_again _ _ _ _ Ea). reflexivity.
    + rewrite E0; simpl. exact E0.
  - rewrite E0; simpl. exact E0.
Qed.

(** X7. Calls at two different quadrature points commute: when each of
    them completes on the object, running them in either order completes
    and leaves the same object. *)
Theorem X7_calls_at_distinct_points_commute :
  forall (h1 h2 : Host) (this s1 s2 : t) (tr1 tr2 : list Event),
    _qp h1 <> _qp h2 ->
    computeQpProperties h1 this = (tr1, s1, Ok tt) ->
    computeQpProperties h2 this = (tr2, s2, Ok tt) ->
    exists s,
      run computeQpProperties [h1; h2] this = (tr1 ++ tr2, s, Ok tt) /\
      run computeQpProperties [h2; h1] this = (tr2 ++ tr1, s, Ok tt).
Proof.
  intros h1 h2 this s1 s2 tr1 tr2 Hne E1 E2.
  destruct (computeQpProperties_shape h1 this) as (t1 & r1 & H1).
  destruct (computeQpProperties_shape h2 this) as (t2 & r2 & H2).
  pose proof (H1 this eq_refl eq_refl eq_refl) as E1'.
  pose proof (H2 this eq_refl eq_refl eq_refl) as E2'.
  rewrite E1 in E1'. rewrite E2 in E2'.
  destruct r1 as [v|e]; [|discriminate].
  destruct r2 as [w|e]; [|discriminate].
  destruct (assign (_permeability_qp this) (_qp h1) v) as [a1|] eqn:Ea1;
    [|discriminate].
  destruct (assign (_permeability_qp this) (_qp h2) w) as [a2|] eqn:Ea2;
    [|discriminate].
  injection E1' as -> ->. injection E2' as -> ->.
  destruct (assign_commute _ _ _ _ _ _ _ Hne Ea1 Ea2) as (a12 & E12 & E21).
  exists (set_permeability_qp this a12).
  simpl. rewrite E1, E2.
  rewrite (H2 (set_permeability_qp this a1) eq_refl eq_refl eq_refl).
  rewrite (H1 (set_permeability_qp this a2) eq_refl eq_refl eq_refl).
  simpl. rewrite E12, E21. rewrite !app_nil_r. split; reflexivity.
Qed.

(** X8. A run, completed or aborted, touches only the slots of the
    quadrature points it visits: the stored tensor, both prefactor handles
    and the number of slots are as before, and so is every slot whose
    index is not the current point of one of the host states. *)
Theorem X8_run_touches_only_visited_slots :
  forall (hs : list Host) (this : t),
    let this' := snd (fst (run computeQpProperties hs this)) in
    _input_permeability this' = _input_permeability this /\
    _prefactor_functor this' = _prefactor_functor this /\
    _prefactor_matprop this' = _prefactor_matprop this /\
    List.length (_permeability_qp this') =
      List.length (_permeability_qp this) /\
    forall j, ~ In j (map _qp hs) ->
      nth_error (_permeability_qp this') j =
      nth_error (_permeability_qp this) j.
Proof.
  induction hs as [|h hs IH]; intros this; simpl.
  - repeat split; auto.
  - destruct (computeQpProperties h this) as [[tr1 s1] [[]|e]] eqn:E1.
    + specialize (IH s1).
      destruct (run computeQpProperties hs s1) as [[tr2 s2] r2]; simpl in *.
      destruct IH as (IK & IF & IM & IL & IS).
      destruct (computeQpProperties_effect _ _ _ _ _ E1)
        as [->|(v & a & Ea & ->)]; simpl in *.
      * repeat split; auto.
      * rewrite IL, (assign_length _ _ _ _ Ea).
        repeat split; auto.
        intros j Hj. rewrite IS by tauto.
        apply (assign_other _ _ _ _ _ Ea). intros ->. tauto.
    + simpl.
      destruct (computeQpProperties_effect _ _ _ _ _ E1)
        as [->|(v & a & Ea & ->)]; simpl.
      * repeat split; auto.
      * rewrite (assign_length _ _ _ _ Ea). repeat split; auto.
        intros j Hj. apply (assign_other _ _ _ _ _ Ea). intros ->. tauto.
Qed.

(** ** Symmetry and sign of what is published *)

Lemma tensor_scale_one (T : RankTwoTensor) : tensor_scale T 1 = T.
Proof. destruct T. unfold tensor_scale; simpl. f_equal; ring. Qed.

Lemma tensor_scale_symmetric (T : RankTwoTensor) (f : Real) :
  symmetric T -> symmetric (tensor_scale T f).
Proof.
  unfold symmetric. destruct T; unfold transpose, tensor_scale; simpl.
  intros H; injection H; intros; subst. reflexivity.
Qed.

(** Whatever a call assigns is the stored tensor times a scalar. *)
Lemma computeQpProperties_publishes_multiple (h : Host) (this : t) :
  forall tr this' r,
    computeQpProperties h this = (tr, this', r) ->
    this' = this \/
    exists phi a,
      assign (_permeability_qp this) (_qp h)
             (tensor_scale (_input_permeability this) phi) = Some a /\
      this' = set_permeability_qp this a.
Proof.
  intros tr this' r.
  destruct (_prefactor_functor this) as [F|] eqn:HF;
    destruct (_prefactor_matprop this) as [P|] eqn:HP.
  4: { unfold_call. rewrite HF, HP; simpl.
       destruct (assign _ _ _) eqn:E; intros H; inversion H; subst; auto.
       right. exists 1, l. rewrite tensor_scale_one. auto. }
  all: unfold_call; rewrite HF, HP; simpl;
    repeat
      match goal with
      | |- context [nth_error ?l ?i] => destruct (nth_error l i); simpl
      | |- context [functor_eval ?a ?b ?c ?d] =>
          destruct (functor_eval a b c d); simpl
      | |- context [Real_ne ?x ?y] => destruct (Real_ne x y); simpl
      | |- context [matprop_value ?a ?b ?c] =>
          destruct (matprop_value a b c); simpl
      | |- context [assign ?l ?i ?v] =>
          let E := fresh "E" in destruct (assign l i v) eqn:E; simpl
      end;
    intros H; inversion H; subst; eauto.
Qed.

(** X9. If the stored tensor is symmetric and so is every slot before a
    run, every slot is symmetric after it, however the run ends: the
    material never publishes an asymmetric tensor. *)
Theorem X9_published_tensors_stay_symmetric :
  forall (hs : list Host) (this : t),
    symmetric (_input_permeability this) ->
    Forall symmetric (_permeability_qp this) ->
    Forall symmetric
           (_permeability_qp (snd (fst (run computeQpProperties hs this)))).
Proof.
  intros hs this HK Hslots.
  destruct (run computeQpProperties hs this) as [[tr s] r] eqn:E; simpl.
  enough (symmetric (_input_permeability s) /\
          Forall symmetric (_permeability_qp s)) by tauto.
  eapply (@run_preserves t computeQpProperties
            (fun s => symmetric (_input_permeability s) /\
                      Forall symmetric (_permeability_qp s)));
    [|exact E|auto].
  intros h s0 tr0 s0' r0 E0 (HK0 & Hs0).
  destruct (computeQpProperties_publishes_multiple _ _ _ _ _ E0)
    as [->|(phi & a & Ea & ->)]; simpl; [auto|].
  split; [assumption|].
  eapply assign_untouched; eauto. apply tensor_scale_symmetric; assumption.
Qed.

(** X10. With non-negative principal permeabilities the tensor stored at
    construction is positive semi-definite: [v . K v >= 0] in every
    direction [v], for every rotation of the local coordinate system
    (the rotation being applied as [R T R^T]). *)
Theorem X10_stored_tensor_positive_semidefinite :
  forall (getUserObject : UserObjectName -> Exc CartesianLocalCoordinateSystem)
         (n_qp : nat) (parameters : InputParameters)
         (cs : CartesianLocalCoordinateSystem),
    getUserObject (local_coordinate_system parameters) = Ok cs ->
    0 <= permeability1 parameters ->
    0 <= permeability2 parameters ->
    0 <= permeability3 parameters ->
    exists this,
      construct getUserObject n_qp parameters = Ok this /\
      positive_semidefinite (_input_permeability this).
Proof.
  intros getUserObject n_qp parameters cs Hcs H1 H2 H3.
  unfold construct. rewrite Hcs.
  eexists; split; [reflexivity|]. simpl.
  set (k1 := permeability1 parameters) in *.
  set (k2 := permeability2 parameters) in *.
  set (k3 := permeability3 parameters) in *.
  destruct cs as [[r00 r01 r02 r10 r11 r12 r20 r21 r22]].
  intros [x y z].
  unfold quad_form, rotateLocalToGlobal, mkRankTwoTensor, tensor_mul,
    transpose; simpl.
  replace (_ + _ + _) with
    (k1 * ((r00 * x + r10 * y + r20 * z) * (r00 * x + r10 * y + r20 * z)) +
     k2 * ((r01 * x + r11 * y + r21 * z) * (r01 * x + r11 * y + r21 * z)) +
     k3 * ((r02 * x + r12 * y + r22 * z) * (r02 * x + r12 * y + r22 * z)))
    by ring.
  pose proof (Rle_0_sqr (r00 * x + r10 * y + r20 * z)) as S1.
  pose proof (Rle_0_sqr (r01 * x + r11 * y + r21 * z)) as S2.
  pose proof (Rle_0_sqr (r02 * x + r12 * y + r22 * z)) as S3.
  unfold Rsqr in *.
  apply Rplus_le_le_0_compat; [apply Rplus_le_le_0_compat|];
    apply Rmult_le_pos; assumption.
Qed.

(** X12. In the identity frame nothing is rotated: the tensor stored at
    construction is [diag(k1, k2, k3)] (the rotation being applied as
    [R T R^T]). *)
Theorem X12_identity_frame_stores_diagonal :
  forall (getUserObject : UserObjectName -> Exc CartesianLocalCoordinateSystem)
         (n_qp : nat) (parameters : InputParameters)
         (cs : CartesianLocalCoordinateSystem),
    getUserObject (local_coordinate_system parameters) = Ok cs ->
    rotation cs = identity_tensor ->
    exists this,
      construct getUserObject n_qp parameters = Ok this /\
      _input_permeability this =
        diag (permeability1 parameters) (permeability2 parameters)
             (permeability3 parameters).
Proof.
  intros getUserObject n_qp parameters cs Hcs HR.
  unfold construct. rewrite Hcs.
  eexists; split; [reflexivity|]. simpl.
  unfold rotateLocalToGlobal. rewrite HR.
  unfold diag, mkRankTwoTensor, tensor_mul, transpose, identity_tensor; simpl.
  f_equal; ring.
Qed.

End PermeabilityCalls.

(** * The scenario, through the further properties *)

Section ScenarioCalls.
Import OpalinusPermeabilityTensor Scenario.
Local Open Scope string_scope.

(** Functor [2], material property [1/2]. *)
Lemma X1_witness :
  exists tr this',
    computeQpProperties (host 1%nat (Ok 2) (Ok (/ 2)))
                        (permeability (Some "f") (Some "m"))
      = (tr, this', Ok tt) /\
    published this' 1%nat =
      Some (tensor_scale
              (_input_permeability (permeability (Some "f") (Some "m")))
              (2 * / 2)).
Proof.
  apply (X1_product_law (host 1%nat (Ok 2) (Ok (/ 2)))
                        (permeability (Some "f") (Some "m")) 2 (/ 2)).
  - simpl. lia.
  - right. reflexivity.
  - right. left. reflexivity.
Defined.

(** Functor [1], material property [1]. *)
Lemma X2_witness :
  exists tr this',
    computeQpProperties (host 1%nat (Ok 1) (Ok 1))
                        (permeability (Some "f") (Some "m"))
      = (tr, this', Ok tt) /\
    published this' 1%nat =
      Some (_input_permeability (permeability (Some "f") (Some "m"))).
Proof.
  apply (X2_unit_prefactor_publishes_K
           (host 1%nat (Ok 1) (Ok 1)) (permeability (Some "f") (Some "m"))).
  - simpl. lia.
  - right. reflexivity.
  - right. reflexivity.
Defined.

(** The functor throws. *)
Lemma X3_witness :
  computeQpProperties
    (host 1%nat (Raise (CollaboratorError 3%nat)) (Ok 1))
    (permeability (Some "f") (Some "m")) =
  ([FunctorEval "f"
      (functor_arg (host 1%nat (Raise (CollaboratorError 3%nat)) (Ok 1))
                   (mkPoint 1 0 0))
      currentState],
   permeability (Some "f") (Some "m"),
   Raise (CollaboratorError 3%nat)).
Proof.
  apply (X3_functor_exception_propagates
           (host 1%nat (Raise (CollaboratorError 3%nat)) (Ok 1))
           (permeability (Some "f") (Some "m"))
           "f" (mkPoint 1 0 0) (CollaboratorError 3%nat)).
  - reflexivity.
  - reflexivity.
  - reflexivity.
Defined.

(** The functor returns [2], the material property throws. *)
Lemma X4_witness :
  exists tr,
    computeQpProperties
      (host 0%nat (Ok 2) (Raise (CollaboratorError 4%nat)))
      (permeability (Some "f") (Some "m")) =
    (tr, permeability (Some "f") (Some "m"),
     Raise (CollaboratorError 4%nat)) /\
    In (MatPropRead "m" 0%nat) tr.
Proof.
  apply (X4_matprop_exception_propagates
           (host 0%nat (Ok 2) (Raise (CollaboratorError 4%nat)))
           (permeability (Some "f") (Some "m"))
           "m" (CollaboratorError 4%nat)).
  - reflexivity.
  - reflexivity.
  - right. exists 2. split; [reflexivity|lra].
Defined.

(** Points 0 and 1 without prefactor, in both orders. *)
Lemma X7_witness :
  exists s,
    run computeQpProperties
        [host 0%nat (Ok 2) (Ok 3); host 1%nat (Ok 5) (Ok 7)]
        (permeability None None) = ([], s, Ok tt) /\
    run computeQpProperties
        [host 1%nat (Ok 5) (Ok 7); host 0%nat (Ok 2) (Ok 3)]
        (permeability None None) = ([], s, Ok tt).
Proof.
  eapply (X7_calls_at_distinct_points_commute
            (host 0%nat (Ok 2) (Ok 3)) (host 1%nat (Ok 5) (Ok 7))
            (permeability None None) _ _ [] []).
  - simpl. lia.
  - reflexivity.
  - reflexivity.
Defined.

(** The scenario's stored tensor and fresh slots are symmetric. *)
Lemma X9_witness :
  Forall symmetric
    (_permeability_qp
       (snd (fst (run computeQpProperties
                      [host 0%nat (Ok 2) (Ok 3); host 1%nat (Ok 0) (Ok 7)]
                      (permeability (Some "f") (Some "m")))))).
Proof.
  apply (X9_published_tensors_stay_symmetric
           [host 0%nat (Ok 2) (Ok 3); host 1%nat (Ok 0) (Ok 7)]
           (permeability (Some "f") (Some "m"))).
  - apply rotated_tensor_symmetric. reflexivity.
  - repeat constructor.
Defined.

(** Principal permeabilities [(2, 2, 1)]. *)
Lemma X10_witness :
  exists this,
    construct getUserObject 2%nat (parameters None None) = Ok this /\
    positive_semidefinite (_input_permeability this).
Proof.
  apply (X10_stored_tensor_positive_semidefinite
           getUserObject 2%nat (parameters None None) frame).
  - reflexivity.
  - simpl. lra.
  - simpl. lra.
  - simpl. lra.
Defined.

(** The scenario's frame is the identity. *)
Lemma X12_witness :
  exists this,
    construct getUserObject 2%nat (parameters None None) = Ok this /\
    _input_permeability this = diag 2 2 1.
Proof.
  apply (X12_identity_frame_stores_diagonal
           getUserObject 2%nat (parameters None None) frame).
  - reflexivity.
  - reflexivity.
Defined.

End ScenarioCalls.

(** * Input parameters and construction *)

Section InputParameters.
Local Open Scope string_scope.

Lemma checkParams_validParams (base : InputFile.InputParameters)
    (vals : string -> option InputFile.ParamValue) :
  InputFile.checkParams
    (InputFile.set_values (InputFile.validParams base) vals) = true ->
  (exists lcs, vals "local_coordinate_system"
               = Some (InputFile.UserObjectNameValue lcs)) /\
  (exists k1, vals "permeability1" = Some (InputFile.RealValue k1)) /\
  (exists k2, vals "permeability2" = Some (InputFile.RealValue k2)) /\
  (exists k3, vals "permeability3" = Some (InputFile.RealValue k3)) /\
  (exists pf, vals "prefactor_functor"
              = option_map InputFile.MooseFunctorNameValue pf) /\
  (exists pm, vals "prefactor_mat_prop"
              = option_map InputFile.MaterialPropertyNameValue pm).
Proof.
  unfold InputFile.checkParams, InputFile.validParams,
    InputFile.addRequiredParam, InputFile.addParam,
    InputFile.addClassDescription, InputFile.set_values; simpl.
  rewrite <- !app_assoc. rewrite forallb_app. simpl.
  unfold InputFile.check_decl; simpl.
  intros H. apply andb_true_iff in H as [_ H].
  repeat (apply andb_true_iff in H as [? H]).
  repeat split.
  - destruct (vals "local_coordinate_system") as [[]|];
      try discriminate; eauto.
  - destruct (vals "permeability1") as [[]|]; try discriminate; eauto.
  - destruct (vals "permeability2") as [[]|]; try discriminate; eauto.
  - destruct (vals "permeability3") as [[]|]; try discriminate; eauto.
  - destruct (vals "prefactor_functor") as [[]|]; try discriminate.
    + exists (Some s). reflexivity.
    + exists None. reflexivity.
  - destruct (vals "prefactor_mat_prop") as [[]|]; try discriminate.
    + exists (Some s). reflexivity.
    + exists None. reflexivity.
Qed.

(** X13. On every input the host's validation accepts against
    [validParams], the constructor finds each parameter it looks up (four
    required ones, two optional prefactor names).  If the prefactor
    sources that are named resolve, it behaves as the constructor applied
    to the decoded values; and when it fails, the exception is the one
    raised by the lookup of the local coordinate system, of the prefactor
    functor or of the prefactor material property, never a missing
    parameter. *)
Theorem X13_validated_input_constructs :
  forall (getUserObject : UserObjectName -> Exc CartesianLocalCoordinateSystem)
         (getFunctor : MooseFunctorName -> Exc unit)
         (getMaterialProperty : MaterialPropertyName -> Exc unit)
         (n_qp : nat) (base : InputFile.InputParameters)
         (vals : string -> option InputFile.ParamValue),
    InputFile.checkParams
      (InputFile.set_values (InputFile.validParams base) vals) = true ->
    exists lcs k1 k2 k3 pf pm,
      vals "local_coordinate_system"
        = Some (InputFile.UserObjectNameValue lcs) /\
      vals "permeability1" = Some (InputFile.RealValue k1) /\
      vals "permeability2" = Some (InputFile.RealValue k2) /\
      vals "permeability3" = Some (InputFile.RealValue k3) /\
      vals "prefactor_functor"
        = option_map InputFile.MooseFunctorNameValue pf /\
      vals "prefactor_mat_prop"
        = option_map InputFile.MaterialPropertyNameValue pm /\
      ((forall F, pf = Some F -> getFunctor F = Ok tt) ->
       (forall P, pm = Some P -> getMaterialProperty P = Ok tt) ->
       InputFile.construct getUserObject getFunctor getMaterialProperty n_qp
         (InputFile.set_values (InputFile.validParams base) vals) =
       OpalinusPermeabilityTensor.construct getUserObject n_qp
         (OpalinusPermeabilityTensor.mkParams lcs k1 k2 k3 pf pm)) /\
      (forall e,
         InputFile.construct getUserObject getFunctor getMaterialProperty
           n_qp (InputFile.set_values (InputFile.validParams base) vals)
           = Raise e ->
         getUserObject lcs = Raise e \/
         (exists F, pf = Some F /\ getFunctor F = Raise e) \/
         (exists P, pm = Some P /\ getMaterialProperty P = Raise e)).
Proof.
  intros getUserObject getFunctor getMaterialProperty n_qp base vals Hcheck.
  destruct (checkParams_validParams base vals Hcheck)
    as ((lcs & Hl) & (k1 & H1) & (k2 & H2) & (k3 & H3) &
        (pf & Hf) & (pm & Hm)).
  exists lcs, k1, k2, k3, pf, pm. repeat (split; [assumption|]).
  unfold InputFile.construct, OpalinusPermeabilityTensor.construct,
    InputFile.get_UserObjectName, InputFile.get_Real,
    InputFile.get_MooseFunctorName, InputFile.get_MaterialPropertyName,
    InputFile.isParamValid, InputFile.set_values; simpl.
  rewrite Hl, H1, H2, H3, Hf, Hm; simpl.
  split.
  - intros HF HP.
    destruct (getUserObject lcs) as [cs|e]; simpl; [|reflexivity].
    destruct pf as [F|]; simpl.
    + rewrite (HF F eq_refl); simpl.
      destruct pm as [P|]; simpl; [rewrite (HP P eq_refl)|]; reflexivity.
    + destruct pm as [P|]; simpl; [rewrite (HP P eq_refl)|]; reflexivity.
  - intros e.
    destruct (getUserObject lcs) as [cs|e0]; simpl;
      [|intros H; injection H as ->; auto].
    destruct pf as [F|]; simpl.
    + destruct (getFunctor F) as [[]|e1] eqn:EF; simpl;
        [|intros H; injection H as ->; eauto 6].
      destruct pm as [P|]; simpl; [|discriminate].
      destruct (getMaterialProperty P) as [[]|e2] eqn:EP; simpl;
        [discriminate|intros H; injection H as ->; eauto 6].
    + destruct pm as [P|]; simpl; [|discriminate].
      destruct (getMaterialProperty P) as [[]|e2] eqn:EP; simpl;
        [discriminate|intros H; injection H as ->; eauto 6].
Qed.

(** X14. An input that lacks one of the four required parameters does not
    pass the validation, whatever else it holds and whatever
    [Material::validParams] declares. *)
Theorem X14_missing_required_parameter_rejected :
  forall (base : InputFile.InputParameters)
         (vals : string -> option InputFile.ParamValue),
    vals "local_coordinate_system" = None \/
    vals "permeability1" = None \/
    vals "permeability2" = None \/
    vals "permeability3" = None ->
    InputFile.checkParams
      (InputFile.set_values (InputFile.validParams base) vals) = false.
Proof.
  intros base vals Hmiss.
  destruct (InputFile.checkParams _) eqn:Hc; [|reflexivity].
  destruct (checkParams_validParams base vals Hc)
    as ((lcs & Hl) & (k1 & H1) & (k2 & H2) & (k3 & H3) & _).
  destruct Hmiss as [H|[H|[H|H]]]; congruence.
Qed.

End InputParameters.

Section ScenarioInput.
Import Scenario.
Local Open Scope string_scope.

(** The scenario's input file passes the validation, its functor
    resolves, and it constructs the scenario's object. *)
Lemma X13_witness :
  InputFile.construct getUserObject getFunctor getMaterialProperty 2%nat
    (InputFile.set_values (InputFile.validParams no_base) input_values) =
  OpalinusPermeabilityTensor.construct getUserObject 2%nat
    (parameters (Some "f") None).
Proof.
  destruct (X13_validated_input_constructs
              getUserObject getFunctor getMaterialProperty
              2%nat no_base input_values eq_refl)
    as (lcs & k1 & k2 & k3 & pf & pm & Hl & H1 & H2 & H3 & Hf & Hm & E & _).
  injection Hl as <-. injection H1 as <-. injection H2 as <-.
  injection H3 as <-.
  destruct pf as [F|]; [|discriminate]. injection Hf as <-.
  destruct pm as [P|]; [discriminate|].
  apply E.
  - intros F HF. injection HF as <-. reflexivity.
  - intros P HP. discriminate.
Defined.

(** An empty input file is rejected. *)
Lemma X14_witness :
  InputFile.checkParams
    (InputFile.set_values (InputFile.validParams no_base) (fun _ => None))
  = false.
Proof.
  apply (X14_missing_required_parameter_rejected no_base (fun _ => None)).
  left. reflexivity.
Defined.

End ScenarioInput.
